(** * Data-analysis dashboard: API client and dataframe helpers

    A shallow embedding of [utils/api_clients.py] and
    [utils/data_helpers.py].  Python exceptions are an error type,
    the network, the clock and the response cache are an explicit
    world threaded through a state-and-exception monad, dataframes
    are column-major records living in a heap of objects. *)

From Stdlib Require Import ZArith Lia Ascii String.
From stdpp Require Import base option list strings gmap fin_maps.

#[local] Set Warnings "-register-all".
Local Open Scope string_scope.
Local Open Scope list_scope.
Local Open Scope Z_scope.

(** ** Exceptions and outcomes *)

(** The exception classes that the two modules raise, catch or let
    through ([UnhashableParamError] is the one the caching decorators
    of the UI library raise).  [ConnectionError], [Timeout], [HTTPError],
    [RequestsJSONDecodeError] and [RequestException] itself are the
    members of the [requests.exceptions.RequestException] hierarchy. *)
Inductive exn : Type :=
| ConnectionError (msg : string)
| Timeout (msg : string)
| HTTPError (status : Z)
| RequestsJSONDecodeError
| RequestException (msg : string)
| ValueError (msg : string)
| KeyError (key : string)
| TypeError (msg : string)
| AttributeError (attr : string)
| FileNotFoundError (path : string)
| ParserError (msg : string)
| ReferenceError
| UnhashableParamError (param : string)
| KeyboardInterrupt.

(** [except requests.exceptions.RequestException] *)
Definition is_request_exception (e : exn) : bool :=
  match e with
  | ConnectionError _ | Timeout _ | HTTPError _
  | RequestsJSONDecodeError | RequestException _ => true
  | _ => false
  end.

Inductive outcome (A : Type) : Type :=
| Ok (a : A)
| Raise (e : exn).
Arguments Ok {A} a.
Arguments Raise {A} e.

Definition outcome_bind {A B} (o : outcome A) (k : A → outcome B) : outcome B :=
  match o with
  | Ok a => k a
  | Raise e => Raise e
  end.

#[global] Instance outcome_ret : MRet outcome := λ A a, Ok a.
#[global] Instance outcome_mbind : MBind outcome := λ A B k o, outcome_bind o k.

(** ** Decoded JSON *)

(** What [response.json()] returns: Python [None], [bool], [int],
    [float] (kept as its literal), [str], [list] and [dict]. *)
Inductive json : Type :=
| JNull
| JBool (b : bool)
| JInt (z : Z)
| JReal (literal : string)
| JStr (s : string)
| JList (items : list json)
| JDict (items : list (string * json)).

(** Lookup in a Python [dict] kept as its item list. *)
Fixpoint dict_lookup {V} (key : string) (items : list (string * V)) : option V :=
  match items with
  | [] => None
  | (k, v) :: rest => if String.eqb k key then Some v else dict_lookup key rest
  end.

(** [obj.get(key)]: only a [dict] has the method; a missing key gives
    [None]. *)
Definition json_get (obj : json) (key : string) : outcome json :=
  match obj with
  | JDict items => Ok (default JNull (dict_lookup key items))
  | _ => Raise (AttributeError "get")
  end.

(** [value == literal] for a string literal on the right. *)
Definition json_eq_str (value : json) (literal : string) : bool :=
  match value with
  | JStr s => String.eqb s literal
  | _ => false
  end.

(** ** The world of the API client *)

Inductive http_method := GET | POST.

Definition query := option (list (string * string)).

Record request := {
  req_method : http_method;
  req_url : string;
  req_headers : list (string * string);
  req_params : query;
  req_json : option json
}.

(** A received response: its status code and what [response.json()]
    does with its body. *)
Record response := {
  status_code : Z;
  decoded : outcome json
}.

(** A cache entry of [st.cache_data]: the value and the instant at
    which it expires. *)
Record cache_entry := {
  cached_value : json;
  expires : Z
}.

Record world := {
  now : Z;                       (* the timer *)
  slept : list Z;                (* arguments of time.sleep, oldest first *)
  sent : list request;           (* requests put on the wire, oldest first *)
  cache : gmap (list (string + query)) cache_entry   (* by the hashes of the arguments *)
}.

(** Stateful, fallible code: a state goes in, an outcome and the
    state after come out; an exception keeps the effects made so far. *)
Definition state_exn (S A : Type) : Type := S → outcome A * S.

#[global] Instance state_exn_ret {S} : MRet (state_exn S) := λ A a s, (Ok a, s).
#[global] Instance state_exn_bind {S} : MBind (state_exn S) := λ A B k m s,
  match m s with
  | (Ok a, s') => k a s'
  | (Raise e, s') => (Raise e, s')
  end.

Definition raise {S A} (e : exn) : state_exn S A := λ s, (Raise e, s).

Definition lift {S A} (o : outcome A) : state_exn S A := λ s, (o, s).

(** [try: body] seen from the handler: the outcome of the body as a
    value; the effects of the body stay. *)
Definition attempt {S A} (body : state_exn S A) : state_exn S (outcome A) := λ s,
  let '(r, s') := body s in (Ok r, s').

Abbreviation M := (state_exn world).

(** [time.sleep(secs)]: a negative argument is a [ValueError].  The
    function is [time.sleep] for arguments of magnitude below
    9223372037, the seconds its clock can count; beyond them
    [time.sleep] raises [OverflowError]. *)
Definition sleep (secs : Z) : M unit := λ w,
  if secs <? 0 then (Raise (ValueError "sleep length must be non-negative"), w)
  else (Ok (), {| now := now w + secs; slept := slept w ++ [secs];
                  sent := sent w; cache := cache w |}).

(** Time going by between two calls. *)
Definition advance (secs : Z) (w : world) : world :=
  {| now := now w + secs; slept := slept w; sent := sent w; cache := cache w |}.

(** [range(n)] *)
Definition range (n : Z) : list Z := Z.of_nat <$> seq 0 (Z.to_nat n).

(** ** [retry_on_failure] *)

Section Retry.
Context {A : Type}.
Variables (max_retries delay : Z) (func : M A).

(** The [for attempt in range(max_retries)] loop of [wrapper], with
    the attempts still to make and [last_error]; [raise last_error]
    with [last_error = None] is a [TypeError]. *)
Fixpoint retry_loop (attempts : list Z) (last_error : option exn) : M A :=
  match attempts with
  | [] =>
      match last_error with
      | Some e => raise e
      | None => raise (TypeError "exceptions must derive from BaseException")
      end
  | attempt_no :: rest =>
      r ← attempt func;
      match r with
      | Ok v => mret v
      | Raise e =>
          if is_request_exception e then
            (if attempt_no <? max_retries - 1
             then sleep (delay * (attempt_no + 1))
             else mret ());;
            retry_loop rest (Some e)
          else raise e
      end
  end.

Definition retry_on_failure : M A := retry_loop (range max_retries) None.
End Retry.

(** ** Arguments as the caching decorators see them *)

(** An argument of a decorated call: a string, a dict of query
    parameters ([None] included), or an instance of a class of the
    application. *)
Inductive argument : Type :=
| ArgStr (s : string)
| ArgQuery (q : query)
| ArgInstance (class_name : string).

(** The hash of the argument named [name]: strings and dicts have one,
    an instance of a class of the application has none. *)
Definition hash_argument (name : string) (a : argument) : outcome (string + query) :=
  match a with
  | ArgStr s => Ok (inl s)
  | ArgQuery q => Ok (inr q)
  | ArgInstance _ => Raise (UnhashableParamError name)
  end.

(** The key of a call: the hashes of its arguments, those whose name
    starts with an underscore left out. *)
Fixpoint hash_arguments (args : list (string * argument)) : outcome (list (string + query)) :=
  match args with
  | [] => Ok []
  | (name, a) :: rest =>
      if String.prefix "_" name then hash_arguments rest
      else h ← hash_argument name a; hs ← hash_arguments rest; mret (h :: hs)
  end.

(** ** [APIClient] *)

Record APIClient := {
  base_url : string;
  api_key : option string;
  session_headers : list (string * string)
}.

(** [s.lstrip("/")] *)
Fixpoint lstrip_slash (s : string) : string :=
  match s with
  | String "/"%char rest => lstrip_slash rest
  | _ => s
  end.

Section Client.
(** The network: what the [n]-th request put on the wire (counting
    from 0) comes back with, a response or a raised exception. *)
Variable transport : nat → request → outcome response.

Definition session_request (req : request) : M response := λ w,
  (transport (length (sent w)) req,
   {| now := now w; slept := slept w; sent := sent w ++ [req]; cache := cache w |}).

(** [response.raise_for_status()] *)
Definition raise_for_status (r : response) : M unit :=
  if (400 <=? status_code r) && (status_code r <? 600)
  then raise (HTTPError (status_code r)) else mret ().

Definition endpoint_url (self : APIClient) (endpoint : string) : string :=
  base_url self +:+ "/" +:+ lstrip_slash endpoint.

(** The request behind [self.session.get(url, params=params)]. *)
Definition get_request (self : APIClient) (endpoint : string) (params : query) : request :=
  {| req_method := GET; req_url := endpoint_url self endpoint;
     req_headers := session_headers self;
     req_params := params; req_json := None |}.

(** The request behind [self.session.post(url, json=data)]. *)
Definition post_request (self : APIClient) (endpoint : string) (data : json) : request :=
  {| req_method := POST; req_url := endpoint_url self endpoint;
     req_headers := session_headers self;
     req_params := None; req_json := Some data |}.

(** The body of [get], under the decorator. *)
Definition get_body (self : APIClient) (endpoint : string) (params : query) : M json :=
  r ← session_request (get_request self endpoint params);
  raise_for_status r;;
  lift (decoded r).

Definition post_body (self : APIClient) (endpoint : string) (data : json) : M json :=
  r ← session_request (post_request self endpoint data);
  raise_for_status r;;
  lift (decoded r).

(** [@retry_on_failure()]: [max_retries = 3], [delay = 1]. *)
Definition get (self : APIClient) (endpoint : string) (params : query) : M json :=
  retry_on_failure 3 1 (get_body self endpoint params).

Definition post (self : APIClient) (endpoint : string) (data : json) : M json :=
  retry_on_failure 3 1 (post_body self endpoint data).

(** [@st.cache_data(ttl=...)] around a call.  The decorator first
    hashes the arguments, which fails on an argument it cannot hash.
    With the key, a stored entry that has not expired is returned
    without running the call; otherwise the call runs and its result
    is stored, expiring [ttl] after the instant of insertion.  A call
    that raises stores nothing. *)
Definition cache_read (key : list (string + query)) : M (option json) := λ w,
  (Ok (match cache w !! key with
       | Some entry => if now w <? expires entry then Some (cached_value entry) else None
       | None => None
       end), w).

Definition cache_write (ttl : Z) (key : list (string + query)) (value : json) : M unit := λ w,
  (Ok (), {| now := now w; slept := slept w; sent := sent w;
             cache := <[key := {| cached_value := value; expires := now w + ttl |}]> (cache w) |}).

Definition cache_data (ttl : Z) (args : list (string * argument)) (func : M json) : M json :=
  key ← lift (hash_arguments args);
  hit ← cache_read key;
  match hit with
  | Some value => mret value
  | None => value ← func; cache_write ttl key value;; mret value
  end.

(** [@st.cache_data(ttl=3600)] on the method: its arguments are
    [self], [endpoint] and [params]. *)
Definition cached_get (self : APIClient) (endpoint : string) (params : query) : M json :=
  cache_data 3600
             [("self", ArgInstance "APIClient"); ("endpoint", ArgStr endpoint);
              ("params", ArgQuery params)]
             (get self endpoint params).

(** What one run of the body of [get] or [post] comes to, given what
    the network did with its request. *)
Definition call_result (o : outcome response) : outcome json :=
  r ← o;
  if (400 <=? status_code r) && (status_code r <? 600)
  then Raise (HTTPError (status_code r)) else decoded r.

(** The world once [req] is on the wire. *)
Definition record (req : request) (w : world) : world :=
  {| now := now w; slept := slept w; sent := sent w ++ [req]; cache := cache w |}.

(** A body that puts one request on the wire and comes to what the
    network did with it. *)
Definition one_request (func : M json) (req : request) : Prop :=
  ∀ w, func w = (call_result (transport (length (sent w)) req), record req w).

(** The attempts made from world [w] on, first to last, come to the
    outcomes [outs]. *)
Definition attempts_come_to (req : request) (w : world) (outs : list (outcome json)) : Prop :=
  ∀ (i : nat) o, outs !! i = Some o →
    call_result (transport (length (sent w) + i) req) = o.

(** [health_check]: the bare [except:] catches every exception. *)
Definition health_check (self : APIClient) : M bool :=
  r ← attempt (resp ← get self "health" None;
               status ← lift (json_get resp "status");
               mret (json_eq_str status "healthy"));
  match r with
  | Ok b => mret b
  | Raise _ => mret false
  end.
End Client.

(** ** Dataframes *)

(** Column types, as [select_dtypes] names them. *)
Inductive dtype : Type :=
| int64 | float64 | object_ | category
| bool_ | datetime64 | timedelta64 | int32 | float32.

#[global] Instance dtype_eq_dec : EqDecision dtype.
Proof. solve_decision. Defined.

Record column (value : Type) := {
  col_name : string;
  col_dtype : dtype;
  cells : list value
}.
Arguments col_name {value} _.
Arguments col_dtype {value} _.
Arguments cells {value} _.

(** A frame: the row labels and the columns, each holding one cell
    per row. *)
Record DataFrame (value : Type) := {
  index : list Z;
  columns : list (column value)
}.
Arguments index {value} _.
Arguments columns {value} _.

(** The invariant of a table: unique column names and one cell per
    row in every column. *)
Definition wf_frame {value} (df : DataFrame value) : Prop :=
  NoDup (col_name <$> columns df) ∧
  Forall (λ c, length (cells c) = length (index df)) (columns df).

(** A value of an operation's parameter dict: a literal to compare
    cells with, a list of column names, a mapping from column to
    aggregate, or a flag. *)
Inductive arg (value : Type) : Type :=
| Lit (v : value)
| Names (names : list string)
| Aggs (aggs : list (string * string))
| Flag (b : bool).
Arguments Lit {value} v.
Arguments Names {value} names.
Arguments Aggs {value} aggs.
Arguments Flag {value} b.

(** Where a parser reads from: an open stream (its bytes) or a path. *)
Inductive source : Type :=
| Buffer (content : string)
| Path (path : string).

(** The dataframe library, as far as the helpers call it without the
    claims depending on what it computes: comparison of cells,
    grouping, sorting, floating-point descriptive statistics and the
    file parsers. *)
Class Pandas (value : Type) := {
  (** [x == v] on a cell and a literal *)
  cell_eq : value → value → bool;
  (** [isnull] on a cell *)
  isnull : value → bool;
  (** [series == a] for [a] a list or a mapping *)
  compare_other : list value → arg value → outcome (list bool);
  grouped : Type;
  groupby : DataFrame value → arg value → outcome grouped;
  agg : grouped → arg value → outcome (DataFrame value);
  sort_values : DataFrame value → arg value → arg value → outcome (DataFrame value);
  number : Type;
  (** [describe] of one numeric column: count, mean, std, min,
      quartiles, max *)
  describe_series : list value → list (string * number);
  read_csv : source → outcome (DataFrame value);
  read_excel : source → outcome (DataFrame value);
  (** [value_counts] of the cells of a column of type category: a
      count for every category of the type, those that do not occur
      included; the categories are in the type, not in the cells *)
  categorical_counts : list value → list (value * nat);
  (** [counts.reset_index()] on the counts of the column called
      [name]: the frame of the values and their counts; a library
      that calls the counts 'count' refuses a column of that name *)
  reset_index_counts : string → list (value * nat) → outcome (list (value * nat))
}.

Section Frames.
Context {value : Type} {pandas : Pandas value}.

(** [len(df)] *)
Definition len (df : DataFrame value) : nat := length (index df).

Definition column_names (df : DataFrame value) : list string :=
  col_name <$> columns df.

Fixpoint find_column (col : string) (cols : list (column value)) : option (column value) :=
  match cols with
  | [] => None
  | c :: rest => if String.eqb (col_name c) col then Some c else find_column col rest
  end.

(** [df[col]] *)
Definition getitem (df : DataFrame value) (col : string) : outcome (column value) :=
  match find_column col (columns df) with
  | Some c => Ok c
  | None => Raise (KeyError col)
  end.

(** [series == a] *)
Definition series_eq (series : column value) (a : arg value) : outcome (list bool) :=
  match a with
  | Lit v => Ok ((λ x, cell_eq x v) <$> cells series)
  | _ => compare_other (cells series) a
  end.

(** The entries of [xs] at the positions where [mask] is true. *)
Fixpoint take_mask {X} (mask : list bool) (xs : list X) : list X :=
  match mask, xs with
  | b :: mask', x :: xs' => if b then x :: take_mask mask' xs' else take_mask mask' xs'
  | _, _ => []
  end.

Definition mask_column (mask : list bool) (c : column value) : column value :=
  {| col_name := col_name c; col_dtype := col_dtype c;
     cells := take_mask mask (cells c) |}.

(** [df[mask]] for a boolean mask: a new frame with the rows where
    the mask is true, labels kept. *)
Definition getitem_mask (df : DataFrame value) (mask : list bool) : DataFrame value :=
  {| index := take_mask mask (index df);
     columns := mask_column mask <$> columns df |}.

(** *** Rows *)

Definition row : Type := Z * list (string * value).

(** [row[col]] *)
Definition row_get (r : row) (col : string) : option value := dict_lookup col r.2.

Definition head_cell (c : column value) : option (string * value) :=
  match cells c with
  | x :: _ => Some (col_name c, x)
  | [] => None
  end.

Definition heads (cols : list (column value)) : option (list (string * value)) :=
  mapM head_cell cols.

Definition tail_column (c : column value) : column value :=
  {| col_name := col_name c; col_dtype := col_dtype c; cells := tail (cells c) |}.

Definition tails (cols : list (column value)) : list (column value) :=
  tail_column <$> cols.

Fixpoint rows_from (labels : list Z) (cols : list (column value)) : list row :=
  match labels with
  | [] => []
  | l :: labels' =>
      match heads cols with
      | Some r => (l, r) :: rows_from labels' (tails cols)
      | None => []
      end
  end.

(** The rows of a frame, first to last, each with its label and its
    cells by column name. *)
Definition rows (df : DataFrame value) : list row := rows_from (index df) (columns df).

(** [row[col] == v] *)
Definition row_matches (col : string) (v : value) (r : row) : bool :=
  match row_get r col with
  | Some x => cell_eq x v
  | None => false
  end.

(** *** The heap of frames *)

(** Frames are objects: a variable holds a reference, and the
    library's operations used here return a new object. *)
Abbreviation HeapM := (state_exn (gmap nat (DataFrame value))).

Definition alloc (df : DataFrame value) : HeapM nat := λ h,
  let l := fresh (dom h) in (Ok l, <[l := df]> h).

Definition deref (l : nat) : HeapM (DataFrame value) := λ h,
  match h !! l with
  | Some df => (Ok df, h)
  | None => (Raise ReferenceError, h)
  end.

(** [df.copy()] *)
Definition copy (l : nat) : HeapM nat := df ← deref l; alloc df.

(** [processed_df = expr(processed_df)]: the expression is evaluated
    on the object the variable refers to, its value is a new object,
    and the variable now refers to that one. *)
Definition rebind (processed_df : nat)
    (expr : DataFrame value → outcome (DataFrame value)) : HeapM nat :=
  df ← deref processed_df;
  out ← lift (expr df);
  alloc out.

(** [processed_df[processed_df[col] == value]] *)
Definition filter_expr (col : string) (v : arg value) (df : DataFrame value)
    : outcome (DataFrame value) :=
  series ← getitem df col;
  mask ← series_eq series v;
  mret (getitem_mask df mask).

(** [for col, value in params.items()] *)
Fixpoint filter_loop (processed_df : nat) (items : list (string * arg value)) : HeapM nat :=
  match items with
  | [] => mret processed_df
  | (col, v) :: rest =>
      processed_df ← rebind processed_df (filter_expr col v);
      filter_loop processed_df rest
  end.

(** [params[key]] *)
Definition subscript (params : list (string * arg value)) (key : string) : outcome (arg value) :=
  match dict_lookup key params with
  | Some a => Ok a
  | None => Raise (KeyError key)
  end.

(** [processed_df.groupby(params['by']).agg(params['agg'])] *)
Definition group_expr (params : list (string * arg value)) (df : DataFrame value)
    : outcome (DataFrame value) :=
  by_ ← subscript params "by";
  g ← groupby df by_;
  how ← subscript params "agg";
  agg g how.

(** [processed_df.sort_values(by=params['by'],
    ascending=params.get('ascending', True))] *)
Definition sort_expr (params : list (string * arg value)) (df : DataFrame value)
    : outcome (DataFrame value) :=
  by_ ← subscript params "by";
  sort_values df by_ (default (Flag true) (dict_lookup "ascending" params)).

(** One turn of [for op, params in operations.items()]. *)
Definition apply_operation (processed_df : nat)
    (op : string) (params : list (string * arg value)) : HeapM nat :=
  if String.eqb op "filter" then filter_loop processed_df params
  else if String.eqb op "group" then rebind processed_df (group_expr params)
  else if String.eqb op "sort" then rebind processed_df (sort_expr params)
  else mret processed_df.

Fixpoint operations_loop (processed_df : nat)
    (operations : list (string * list (string * arg value))) : HeapM nat :=
  match operations with
  | [] => mret processed_df
  | (op, params) :: rest =>
      processed_df ← apply_operation processed_df op params;
      operations_loop processed_df rest
  end.

Definition process_data (df : nat)
    (operations : list (string * list (string * arg value))) : HeapM nat :=
  processed_df ← copy df;
  operations_loop processed_df operations.

(** Two calls in a row, each with one equality filter, the second on
    the result of the first, end with the frame [out]. *)
Definition filtered_twice (h : gmap nat (DataFrame value)) (df : nat)
    (col1 : string) (v1 : value) (col2 : string) (v2 : value)
    (out : DataFrame value) : Prop :=
  ∃ l1 h1 l2 h2,
    process_data df [("filter", [(col1, Lit v1)])] h = (Ok l1, h1) ∧
    process_data l1 [("filter", [(col2, Lit v2)])] h1 = (Ok l2, h2) ∧
    h2 !! l2 = Some out.

(** Operation names that [process_data] acts on. *)
Definition recognized (op : string) : bool :=
  String.eqb op "filter" || String.eqb op "group" || String.eqb op "sort".

(** Every column holds [n] cells. *)
Definition all_of_length (n : nat) (cols : list (column value)) : Prop :=
  Forall (λ c, length (cells c) = n) cols.

(** A step on the heap that only adds objects, and whose result is
    the reference [p] it was given or a new one. *)
Definition allocates_only (p : nat) (m : HeapM nat) : Prop :=
  ∀ h r h', m h = (r, h') →
    h ⊆ h' ∧ ∀ l, r = Ok l → l = p ∨ h !! l = None.
End Frames.

(** ** [generate_summary_stats] *)

(** The values of the [stats] dict. *)
Inductive stat (value number : Type) : Type :=
| SInt (n : nat)
| SNames (names : list string)
| SMissing (counts : list (string * nat))
| SDescribe (table : list (string * list (string * number)))
| SFrequencies (tables : list (string * list (value * nat))).
Arguments SInt {value number} n.
Arguments SNames {value number} names.
Arguments SMissing {value number} counts.
Arguments SDescribe {value number} table.
Arguments SFrequencies {value number} tables.

Section Summary.
Context {value : Type} {pandas : Pandas value}.

(** [df.select_dtypes(include=...)]: the columns whose type is one
    of the listed ones, in their order. *)
Definition select_dtypes (df : DataFrame value) (include : list dtype) : DataFrame value :=
  {| index := index df;
     columns := filter (λ c, col_dtype c ∈ include) (columns df) |}.

(** [df[names]] for a list of names *)
Definition getitem_list (df : DataFrame value) (names : list string)
    : outcome (DataFrame value) :=
  cols ← mapM (getitem df) names;
  mret {| index := index df; columns := cols |}.

(** [df.describe().to_dict()] on numeric columns *)
Definition describe (df : DataFrame value) : list (string * list (string * number)) :=
  (λ c, (col_name c, describe_series (cells c))) <$> columns df.

(** [df.isnull().sum().to_dict()] *)
Definition missing_values (df : DataFrame value) : list (string * nat) :=
  (λ c, (col_name c, length (filter (λ x, isnull x = true) (cells c)))) <$> columns df.

Fixpoint bump (v : value) (counts : list (value * nat)) : list (value * nat) :=
  match counts with
  | [] => [(v, 1%nat)]
  | (k, n) :: rest => if cell_eq k v then (k, S n) :: rest else (k, n) :: bump v rest
  end.

(** The occurrences of each distinct non-null value among the cells. *)
Definition observed_counts (xs : list value) : list (value * nat) :=
  foldl (λ counts x, if isnull x then counts else bump x counts) [] xs.

(** [series.value_counts()]: the occurrences of each distinct non-null
    value, and for a column of type category the counts of its
    categories; the order of the counts is not represented. *)
Definition value_counts (series : column value) : list (value * nat) :=
  if decide (col_dtype series = category) then categorical_counts (cells series)
  else observed_counts (cells series).

Definition generate_summary_stats (df : DataFrame value)
    : outcome (list (string * stat value number)) :=
  let numeric_cols := column_names (select_dtypes df [int64; float64]) in
  let categorical_cols := column_names (select_dtypes df [object_; category]) in
  numeric_summary ←
    (if (0 <? length numeric_cols)%nat
     then sub ← getitem_list df numeric_cols; mret (describe sub)
     else mret []);
  categorical_summary ←
    (if (0 <? length categorical_cols)%nat
     then mapM (λ col, series ← getitem df col; mret (col, value_counts series))
               categorical_cols
     else mret []);
  mret [("row_count", SInt (len df));
        ("column_count", SInt (length (columns df)));
        ("numeric_columns", SNames numeric_cols);
        ("categorical_columns", SNames categorical_cols);
        ("missing_values", SMissing (missing_values df));
        ("numeric_summary", SDescribe numeric_summary);
        ("categorical_summary", SFrequencies categorical_summary)].

(** The partition as the specification words it: every column is in
    exactly one of the two lists of the summary. *)
Definition partition_total_disjoint (df : DataFrame value) : Prop :=
  ∃ stats numeric categorical,
    generate_summary_stats df = Ok stats ∧
    dict_lookup "numeric_columns" stats = Some (SNames numeric) ∧
    dict_lookup "categorical_columns" stats = Some (SNames categorical) ∧
    ∀ c, c ∈ columns df →
      (col_name c ∈ numeric ∧ ¬ col_name c ∈ categorical) ∨
      (¬ col_name c ∈ numeric ∧ col_name c ∈ categorical).
End Summary.

(** ** [load_data] *)

(** Objects that are neither a named stream nor a string. *)
Inductive pyobj : Type :=
| PyNone
| PyInt (z : Z)
| PyBytes (b : string)
| PyList (items : list pyobj).

(** [type(o).__name__] *)
Definition type_name (o : pyobj) : string :=
  match o with
  | PyNone => "NoneType"
  | PyInt _ => "int"
  | PyBytes _ => "bytes"
  | PyList _ => "list"
  end.

(** What [load_data] can be handed: an object with a [name] attribute
    (an uploaded file: its name and bytes), a [str], or anything else. *)
Inductive upload : Type :=
| UploadedFile (name : string) (content : string)
| PathStr (path : string)
| OtherObject (o : pyobj).

(** [s.endswith(suffix)] *)
Definition endswith (s suffix : string) : bool :=
  let n := String.length s in
  let m := String.length suffix in
  (m <=? n)%nat && String.eqb (substring (n - m) m s) suffix.

Section Loader.
Context {value : Type} {pandas : Pandas value}.

Definition load_data (uploaded_file : upload) : outcome (DataFrame value) :=
  match uploaded_file with
  | UploadedFile file_name content =>
      if endswith file_name ".csv" then read_csv (Buffer content)
      else if endswith file_name ".xlsx" then read_excel (Buffer content)
      else Raise (ValueError ("Unsupported file format: " +:+ file_name))
  | PathStr path =>
      if endswith path ".csv" then read_csv (Path path)
      else if endswith path ".xlsx" then read_excel (Path path)
      else Raise (ValueError ("Unsupported file format: " +:+ path))
  | OtherObject _ => Raise (ValueError "Invalid file input type")
  end.
End Loader.

(** [needle in haystack] on strings. *)
Fixpoint contains (haystack needle : string) : bool :=
  String.prefix needle haystack ||
  match haystack with
  | EmptyString => false
  | String _ rest => contains rest needle
  end.

(** The exception carries [what] in its message. *)
Definition carries (e : exn) (what : string) : bool :=
  match e with
  | ValueError msg => contains msg what
  | _ => false
  end.

(** The rejection of an object that is neither a named stream nor a
    string as the specification words it: the error carries the type
    of the object. *)
Definition rejects_naming_type {value : Type} {pandas : Pandas value} (o : pyobj) : Prop :=
  ∃ e, load_data (value:=value) (OtherObject o) = Raise e ∧ carries e (type_name o) = true.

(** ** A reference table library

    Concrete cells and a small reader for comma-separated text, to
    run the helpers on explicit tables.  The reader covers plain CSV:
    line feeds between records, no quoting, as many fields in every
    record as in the header, distinct header names. *)

Inductive cell : Type :=
| VInt (z : Z)
| VStr (s : string)
| VBool (b : bool)
| VNaN.

(** Python's [==] on scalars: [NaN] equals nothing, [True] is [1]. *)
Definition cell_eqb (x v : cell) : bool :=
  match x, v with
  | VInt a, VInt b => a =? b
  | VStr a, VStr b => String.eqb a b
  | VBool a, VBool b => Bool.eqb a b
  | VBool a, VInt b | VInt b, VBool a => b =? (if a then 1 else 0)
  | _, _ => false
  end.

Definition cell_isnull (x : cell) : bool :=
  match x with
  | VNaN => true
  | _ => false
  end.

Fixpoint split_on (sep : ascii) (s : string) : list string :=
  match s with
  | EmptyString => [EmptyString]
  | String c rest =>
      if Ascii.eqb c sep then EmptyString :: split_on sep rest
      else match split_on sep rest with
           | cur :: more => String c cur :: more
           | [] => [String c EmptyString]
           end
  end.

Definition digit_value (c : ascii) : option Z :=
  let n := nat_of_ascii c in
  if (48 <=? n)%nat && (n <=? 57)%nat then Some (Z.of_nat (n - 48)) else None.

Fixpoint parse_digits (s : string) (acc : Z) : option Z :=
  match s with
  | EmptyString => Some acc
  | String c rest => d ← digit_value c; parse_digits rest (10 * acc + d)
  end.

Definition parse_int (s : string) : option Z :=
  match s with
  | EmptyString => None
  | String "-"%char (String _ _ as digits) => Z.opp <$> parse_digits digits 0
  | _ => parse_digits s 0
  end.

(** Type inference on the text of one column: no field at all is
    object; integers are int64, and float64 once a field is empty;
    True and False are bool; anything else is object. *)
Definition infer_column (name : string) (fields : list string) : column cell :=
  match fields with
  | [] => {| col_name := name; col_dtype := object_; cells := [] |}
  | _ =>
      match mapM parse_int fields with
      | Some ints => {| col_name := name; col_dtype := int64; cells := VInt <$> ints |}
      | None =>
          match mapM (λ f, if String.eqb f "" then Some VNaN else VInt <$> parse_int f)
                     fields with
          | Some numbers => {| col_name := name; col_dtype := float64; cells := numbers |}
          | None =>
              if forallb (λ f, String.eqb f "True" || String.eqb f "False") fields
              then {| col_name := name; col_dtype := bool_;
                      cells := (λ f, VBool (String.eqb f "True")) <$> fields |}
              else {| col_name := name; col_dtype := object_;
                      cells := (λ f, if String.eqb f "" then VNaN else VStr f) <$> fields |}
          end
      end
  end.

Definition parse_csv (content : string) : outcome (DataFrame cell) :=
  let lines := filter (λ l, l ≠ "") (split_on "010"%char content) in
  match (split_on ","%char <$> lines) with
  | [] => Raise (ValueError "No columns to parse from file")
  | header :: records =>
      if bool_decide (NoDup header ∧
                      Forall (λ r, length r = length header) records)
      then Ok {| index := Z.of_nat <$> seq 0 (length records);
                 columns := imap (λ i name,
                                    infer_column name ((λ r, default "" (r !! i)) <$> records))
                                 header |}
      else Raise (ParserError "Error tokenizing data")
  end.

#[global] Instance reference_pandas : Pandas cell := {|
  cell_eq := cell_eqb;
  isnull := cell_isnull;
  compare_other := λ _ _, Raise (ValueError "Lengths must match to compare");
  grouped := DataFrame cell;
  groupby := λ df _, Ok df;
  agg := λ _ _, Raise (TypeError "aggregation is not provided");
  sort_values := λ _ _ _, Raise (TypeError "sorting is not provided");
  number := nat;
  describe_series := λ xs, [("count", length (filter (λ x, cell_isnull x = false) xs))];
  read_csv := λ src,
    match src with
    | Buffer content => parse_csv content
    | Path path => Raise (FileNotFoundError path)
    end;
  read_excel := λ _, Raise (ValueError "Excel file format cannot be determined");
  categorical_counts := λ _, [];
  reset_index_counts := λ name counts,
    if String.eqb name "count" then Raise (ValueError "cannot insert count, already exists")
    else Ok counts
|}.

(** ** Concrete inputs *)

Definition start : world := {| now := 0; slept := []; sent := []; cache := ∅ |}.

Definition demo_client : APIClient :=
  {| base_url := "https://api.example.com"; api_key := Some "secret";
     session_headers := [("Authorization", "Bearer secret");
                         ("Content-Type", "application/json");
                         ("Accept", "application/json")] |}.

(** A host that refuses the first two connections. *)
Definition flaky : nat → request → outcome response := λ n _,
  if (n <? 2)%nat then Raise (ConnectionError "connection refused")
  else Ok {| status_code := 200; decoded := Ok (JDict [("status", JStr "healthy")]) |}.

Definition unreachable : nat → request → outcome response := λ _ _,
  Raise (ConnectionError "no route to host").

(** A host that answers every request with the number of the request. *)
Definition steady : nat → request → outcome response := λ n _,
  Ok {| status_code := 200; decoded := Ok (JInt (Z.of_nat n)) |}.

Definition people : DataFrame cell :=
  {| index := [0; 1; 2; 3];
     columns :=
       [{| col_name := "city"; col_dtype := object_;
           cells := [VStr "Oslo"; VStr "Rome"; VStr "Oslo"; VNaN] |};
        {| col_name := "age"; col_dtype := int64;
           cells := [VInt 31; VInt 45; VInt 27; VInt 31] |};
        {| col_name := "member"; col_dtype := bool_;
           cells := [VBool true; VBool false; VBool true; VBool true] |}] |}.

Definition no_rows : DataFrame cell := {| index := []; columns := [] |}.

Definition csv_example : string := "a,b
1,2
3,4".

(** ** The rest of the API client *)

(** [s.rstrip("/")] *)
Fixpoint rstrip_slash (s : string) : string :=
  match s with
  | EmptyString => EmptyString
  | String c rest =>
      match rstrip_slash rest with
      | EmptyString => if Ascii.eqb c "/" then EmptyString else String c EmptyString
      | kept => String c kept
      end
  end.

(** ["/" * n] *)
Fixpoint slashes (n : nat) : string :=
  match n with
  | O => EmptyString
  | S n' => String "/" (slashes n')
  end.

(** The truth value of an optional string: [None] and the empty string
    are false. *)
Definition truthy (s : option string) : bool :=
  match s with
  | Some (String _ _) => true
  | _ => false
  end.

(** [a or b] on optional strings *)
Definition py_or (a b : option string) : option string :=
  if truthy a then a else b.

(** The headers [_init_session] puts on the session. *)
Definition init_session_headers (key : option string) : list (string * string) :=
  match key with
  | Some (String _ _ as k) =>
      [("Authorization", "Bearer " +:+ k);
       ("Content-Type", "application/json");
       ("Accept", "application/json")]
  | _ => []
  end.

(** [self._init_session()] under [@st.cache_resource]: the decorator
    hashes the arguments of the call, here [self], before anything
    else; the body, which puts the headers on a new session, runs
    only with a key. *)
Definition init_session (key : option string) : outcome (list (string * string)) :=
  _ ← hash_arguments [("self", ArgInstance "APIClient")];
  mret (init_session_headers key).

(** [APIClient.__init__], with the value of the environment variable
    [API_KEY]: how the construction ends, and the warnings shown on
    the way. *)
Definition APIClient_init (base_url_arg : string) (api_key_arg env_api_key : option string)
    : outcome APIClient * list string :=
  let key := py_or api_key_arg env_api_key in
  (headers ← init_session key;
   mret {| base_url := rstrip_slash base_url_arg;
           api_key := key;
           session_headers := headers |},
   if truthy key then []
   else ["API key not found. Please set it in the environment variables."]).

(** The line of the dashboard that fills its session state:
    [APIClient(api_base_url, api_key) if api_key and api_base_url else
    None], both read from the environment. *)
Definition session_api_client (env_api_key env_api_base_url : option string)
    : outcome (option APIClient) * list string :=
  match env_api_key, env_api_base_url with
  | Some (String _ _), Some (String _ _ as url) =>
      let '(made, warnings) := APIClient_init url env_api_key env_api_key in
      (self ← made; mret (Some self), warnings)
  | _, _ => (Ok None, [])
  end.

(** [time.sleep] raises [OverflowError] for arguments of this
    magnitude or more. *)
Definition sleep_limit : Z := 9223372037.


(** *** [stream_data] *)

(** A generator made by [stream_data]: not started yet, suspended at a
    [yield] with the lines still to read, or finished. *)
Inductive generator : Type :=
| Created (self : APIClient) (endpoint : string) (params : query)
| Suspended (lines : list string)
| Exhausted.

(** What [next] on a generator gives when it does not raise. *)
Inductive produced : Type :=
| Yielded (v : json)
| StopIteration.

(** How a run over a generator ended: the generator stopped, it
    raised, or the consumer stopped asking. *)
Inductive ending : Type :=
| Stopped
| Failed (e : exn)
| Abandoned.

Section Streaming.
Variable transport : nat → request → outcome response.
(** The lines of the body of a response, as [iter_lines] gives them. *)
Variable iter_lines : response → list string.
(** [json.loads] *)
Variable loads : string → outcome json.

Definition stream_data (self : APIClient) (endpoint : string) (params : query) : generator :=
  Created self endpoint params.

(** The [for line in response.iter_lines()] loop from the line it is
    at to the next [yield], the end of the lines or an exception. *)
Fixpoint resume (lines : list string) : outcome produced * generator :=
  match lines with
  | [] => (Ok StopIteration, Exhausted)
  | line :: rest =>
      if String.eqb line "" then resume rest
      else match loads line with
           | Ok v => (Ok (Yielded v), Suspended rest)
           | Raise e => (Raise e, Exhausted)
           end
  end.

(** [next(g)]: the outcome, the generator afterwards and the world
    afterwards.  The request is sent by the first [next]. *)
Definition next_item (g : generator) (w : world) : outcome produced * generator * world :=
  match g with
  | Created self endpoint params =>
      match session_request transport (get_request self endpoint params) w with
      | (Raise e, w') => (Raise e, Exhausted, w')
      | (Ok r, w') =>
          match raise_for_status r w' with
          | (Raise e, w'') => (Raise e, Exhausted, w'')
          | (Ok _, w'') => (resume (iter_lines r), w'')
          end
      end
  | Suspended lines => (resume lines, w)
  | Exhausted => (Ok StopIteration, Exhausted, w)
  end.

(** A consumer that asks for at most [n] items: the items it got, how
    it ended, and the generator and the world it leaves. *)
Fixpoint consume (n : nat) (g : generator) (w : world)
    : list json * ending * generator * world :=
  match n with
  | O => ([], Abandoned, g, w)
  | S n' =>
      match next_item g w with
      | (Ok (Yielded v), g', w') =>
          let '(items, how, g'', w'') := consume n' g' w' in
          (v :: items, how, g'', w'')
      | (Ok StopIteration, g', w') => ([], Stopped, g', w')
      | (Raise e, g', w') => ([], Failed e, g', w')
      end
  end.
End Streaming.

(** ** The filters of the dashboard *)

Section Conditions.
Context {value : Type} {pandas : Pandas value}.

(** The value of the 'filter' entry for a list of equality conditions:
    [{col: value, ...}]. *)
Definition equalities (conds : list (string * value)) : list (string * arg value) :=
  (λ cv, (cv.1, Lit cv.2)) <$> conds.

(** The row satisfies every condition. *)
Definition all_match (conds : list (string * value)) (r : @row value) : bool :=
  forallb (λ cv, row_matches cv.1 cv.2 r) conds.

(** The call behind the 'Apply Filter' button of the sidebar:
    [process_data(st.session_state.data, {'filter': {col:
    selected_value}})]. *)
Definition sidebar_apply_filter (data : nat) (col : string) (selected_value : value)
    : state_exn (gmap nat (DataFrame value)) nat :=
  process_data data [("filter", [(col, Lit selected_value)])].
End Conditions.

(** ** [create_visualization_data] *)

(** What [create_visualization_data] returns: a dict with the columns
    to plot, the frame of a grouped sum, or the two-column frame of
    value counts (the values under the name of the column, their
    occurrences under 'count'; the order of its rows is not
    represented). *)
Inductive plot (value : Type) : Type :=
| PlotDict (x : column value) (y : option (column value)) (type : string)
           (color : option (column value))
| PlotFrame (df : DataFrame value)
| PlotCounts (x_col : string) (counts : list (value * nat)).
Arguments PlotDict {value} x y type color.
Arguments PlotFrame {value} df.
Arguments PlotCounts {value} x_col counts.

(** How a call ends: with a plot, with a raised exception of the
    shared kinds, or with the [UnboundLocalError] of a local variable
    read before it was assigned. *)
Inductive viz_outcome (value : Type) : Type :=
| VizOk (data : plot value)
| VizRaise (e : exn)
| VizUnboundLocal (name : string).
Arguments VizOk {value} data.
Arguments VizRaise {value} e.
Arguments VizUnboundLocal {value} name.

Section Visualization.
Context {value : Type} {pandas : Pandas value}.
(** [df.groupby(x_col)[y_col].sum().reset_index()] *)
Variable groupby_sum : DataFrame value → string → string → outcome (DataFrame value).

Definition create_visualization_data (df : DataFrame value) (viz_type x_col : string)
    (y_col group_by : option string) : viz_outcome value :=
  if String.eqb viz_type "scatter" || String.eqb viz_type "line" then
    match y_col with
    | Some (String _ _ as y_name) =>
        match getitem df x_col with
        | Raise e => VizRaise e
        | Ok x =>
            match getitem df y_name with
            | Raise e => VizRaise e
            | Ok y =>
                match group_by with
                | Some (String _ _ as g) =>
                    match getitem df g with
                    | Raise e => VizRaise e
                    | Ok color => VizOk (PlotDict x (Some y) viz_type (Some color))
                    end
                | _ => VizOk (PlotDict x (Some y) viz_type None)
                end
            end
        end
    | _ => VizRaise (ValueError (viz_type +:+ " plot requires y_col"))
    end
  else if String.eqb viz_type "bar" then
    match y_col with
    | Some (String _ _ as y_name) =>
        match groupby_sum df x_col y_name with
        | Raise e => VizRaise e
        | Ok out => VizOk (PlotFrame out)
        end
    | _ =>
        match getitem df x_col with
        | Raise e => VizRaise e
        | Ok x =>
            match reset_index_counts x_col (value_counts x) with
            | Raise e => VizRaise e
            | Ok counts => VizOk (PlotCounts x_col counts)
            end
        end
    end
  else if String.eqb viz_type "histogram" then
    match getitem df x_col with
    | Raise e => VizRaise e
    | Ok x => VizOk (PlotDict x None "histogram" None)
    end
  else VizUnboundLocal "data".
End Visualization.

(** ** More concrete inputs *)

(** A body of records with a keep-alive line and a malformed line. *)
Definition number_lines : response → list string := λ _,
  ["1"; ""; "2"; "oops"; "3"].

Definition clean_lines : response → list string := λ _, ["1"; ""; "2"].

(** [json.loads] on the documents that are one integer. *)
Definition loads_int (s : string) : outcome json :=
  match parse_int s with
  | Some z => Ok (JInt z)
  | None => Raise (ValueError "Expecting value")
  end.

(** A host that answers every request with status 503. *)
Definition overloaded : nat → request → outcome response := λ _ _,
  Ok {| status_code := 503; decoded := Ok JNull |}.

(** A grouped sum that is not provided. *)
Definition no_groupby_sum : DataFrame cell → string → string → outcome (DataFrame cell) :=
  λ _ _ _, Raise (TypeError "grouped sum is not provided").

(** * Properties *)

Lemma bind_run {S A B} (m : state_exn S A) (k : A → state_exn S B) s :
  (m ≫= k) s = match m s with
               | (Ok a, s') => k a s'
               | (Raise e, s') => (Raise e, s')
               end.
Proof. reflexivity. Qed.

(** ** The API client *)

Section ClientFacts.
Variable transport : nat → request → outcome response.

Lemma call_run (req : request) w :
  (r ← session_request transport req; raise_for_status r;; lift (decoded r)) w
  = (call_result (transport (length (sent w)) req), record req w).
Proof.
  rewrite bind_run. unfold session_request, call_result, record. simpl.
  destruct (transport _ req) as [r|e]; simpl; [|done].
  rewrite bind_run. unfold raise_for_status.
  destruct (_ && _); reflexivity.
Qed.

Lemma get_body_one_request self endpoint params :
  one_request transport (get_body transport self endpoint params)
              (get_request self endpoint params).
Proof. intros w. apply call_run. Qed.

Lemma post_body_one_request self endpoint data :
  one_request transport (post_body transport self endpoint data)
              (post_request self endpoint data).
Proof. intros w. apply call_run. Qed.

(** One turn of the retry loop. *)
Lemma retry_loop_cons {A} (max_retries delay : Z) (func : M A) a rest last w :
  retry_loop max_retries delay func (a :: rest) last w =
  match func w with
  | (Ok v, w') => (Ok v, w')
  | (Raise e, w') =>
      if is_request_exception e then
        if a <? max_retries - 1 then
          match sleep (delay * (a + 1)) w' with
          | (Ok _, w'') => retry_loop max_retries delay func rest (Some e) w''
          | (Raise e', w'') => (Raise e', w'')
          end
        else retry_loop max_retries delay func rest (Some e) w'
      else (Raise e, w')
  end.
Proof.
  cbn [retry_loop]. rewrite bind_run. unfold attempt.
  destruct (func w) as [[v|e] w']; [reflexivity|].
  destruct (is_request_exception e); [|reflexivity].
  rewrite bind_run. destruct (a <? max_retries - 1); reflexivity.
Qed.

Lemma sleep_run secs w :
  0 ≤ secs →
  sleep secs w = (Ok (), {| now := now w + secs; slept := slept w ++ [secs];
                            sent := sent w; cache := cache w |}).
Proof. intros. unfold sleep. destruct (Z.ltb_spec secs 0); [lia|done]. Qed.

(** Three attempts of which the first two fail on the transport. *)
Lemma retry_three_attempts (delay : Z) (func : M json) req w e1 e2 (o3 : outcome json) :
  one_request transport func req →
  0 ≤ delay →
  is_request_exception e1 = true → is_request_exception e2 = true →
  attempts_come_to transport req w [Raise e1; Raise e2; o3] →
  (∀ e3, o3 = Raise e3 → is_request_exception e3 = true) →
  ∃ w', retry_on_failure 3 delay func w = (o3, w') ∧
        slept w' = slept w ++ [delay * 1; delay * 2] ∧
        sent w' = sent w ++ [req; req; req].
Proof.
  intros Hf Hd H1 H2 Hall H3.
  pose proof (Hall 0%nat _ eq_refl) as A1.
  pose proof (Hall 1%nat _ eq_refl) as A2.
  pose proof (Hall 2%nat _ eq_refl) as A3.
  rewrite Nat.add_0_r in A1.
  unfold retry_on_failure.
  change (range 3) with [0; 1; 2].
  rewrite retry_loop_cons, Hf, A1, H1.
  change (0 <? 3 - 1) with true. cbv iota.
  rewrite sleep_run by lia.
  rewrite retry_loop_cons, Hf. cbn [sent record].
  rewrite length_app. cbn [length]. rewrite A2, H2.
  change (1 <? 3 - 1) with true. cbv iota.
  rewrite sleep_run by lia.
  rewrite retry_loop_cons, Hf. cbn [sent record slept now cache].
  rewrite !length_app. cbn [length].
  replace (length (sent w) + 1 + 1)%nat with (length (sent w) + 2)%nat by lia.
  rewrite A3.
  destruct o3 as [v|e3].
  - eexists; split; [reflexivity|]. cbn [sent slept record].
    rewrite <- !app_assoc. change (0 + 1) with 1. change (1 + 1) with 2.
    split; done.
  - rewrite (H3 e3 eq_refl).
    change (2 <? 3 - 1) with false. cbv iota.
    eexists; split; [reflexivity|]. cbn [sent slept record].
    rewrite <- !app_assoc. change (0 + 1) with 1. change (1 + 1) with 2.
    split; done.
Qed.

(** C1: a call of [get] or [post] wrapped with [max_retries = 3]
    whose first two attempts fail with transport errors returns the
    result of the third attempt when that one succeeds, and raises
    the third (the last) transport error when that one fails too; in
    both cases it has slept exactly twice on the way, [delay * 1]
    after the first attempt and [delay * 2] after the second. *)
Theorem retry_on_third_attempt (delay : Z) self endpoint params data
    (func : M json) req w e1 e2 :
  (func = get_body transport self endpoint params ∧
   req = get_request self endpoint params) ∨
  (func = post_body transport self endpoint data ∧
   req = post_request self endpoint data) →
  0 ≤ delay →
  is_request_exception e1 = true →
  is_request_exception e2 = true →
  (∀ v, attempts_come_to transport req w [Raise e1; Raise e2; Ok v] →
        ∃ w', retry_on_failure 3 delay func w = (Ok v, w') ∧
              slept w' = slept w ++ [delay * 1; delay * 2]) ∧
  (∀ e3, is_request_exception e3 = true →
         attempts_come_to transport req w [Raise e1; Raise e2; Raise e3] →
         ∃ w', retry_on_failure 3 delay func w = (Raise e3, w') ∧
               slept w' = slept w ++ [delay * 1; delay * 2]).
Proof.
  intros Hwhich Hd H1 H2.
  assert (one_request transport func req) as Hf.
  { destruct Hwhich as [[-> ->]|[-> ->]];
      [apply get_body_one_request|apply post_body_one_request]. }
  split.
  - intros v Hall.
    destruct (retry_three_attempts delay func req w e1 e2 (Ok v))
      as (w' & Hrun & Hslept & _); try done.
    by exists w'.
  - intros e3 H3 Hall.
    destruct (retry_three_attempts delay func req w e1 e2 (Raise e3))
      as (w' & Hrun & Hslept & _); try done.
    + by intros ? [= <-].
    + by exists w'.
Qed.

(** A call with arguments that all have a hash and no live entry under
    their key runs the function and stores what it returns. *)
Lemma cache_data_miss ttl args key (func : M json) w :
  hash_arguments args = Ok key →
  (∀ entry, cache w !! key = Some entry → expires entry ≤ now w) →
  cache_data ttl args func w =
  match func w with
  | (Ok v, w') =>
      (Ok v, {| now := now w'; slept := slept w'; sent := sent w';
                cache := <[key := {| cached_value := v; expires := now w' + ttl |}]>
                           (cache w') |})
  | (Raise e, w') => (Raise e, w')
  end.
Proof.
  intros Hkey Hstale. unfold cache_data. rewrite bind_run. unfold lift. rewrite Hkey.
  rewrite bind_run. unfold cache_read at 1.
  destruct (cache w !! key) as [entry|] eqn:Hentry.
  - specialize (Hstale _ eq_refl).
    destruct (Z.ltb_spec (now w) (expires entry)); [lia|].
    rewrite bind_run. destruct (func w) as [[v|e] w']; reflexivity.
  - rewrite bind_run. destruct (func w) as [[v|e] w']; reflexivity.
Qed.

(** A call with arguments that all have a hash and a live entry under
    their key returns the stored value and does not run the
    function. *)
Lemma cache_data_hit ttl args key (func : M json) w v t :
  hash_arguments args = Ok key →
  cache w !! key = Some {| cached_value := v; expires := t |} →
  now w < t →
  cache_data ttl args func w = (Ok v, w).
Proof.
  intros Hkey Hentry Hlive. unfold cache_data. rewrite bind_run. unfold lift. rewrite Hkey.
  rewrite bind_run. unfold cache_read. rewrite Hentry. cbn [expires cached_value].
  destruct (Z.ltb_spec (now w) t); [reflexivity|lia].
Qed.

(** C3, as the code has it: the decorator of [cached_get] has to hash
    [self], an instance of [APIClient], and cannot; every call raises
    [UnhashableParamError] for [self] before [get] is reached: no
    request is sent, nothing is stored, and the world is as it was,
    whatever the cache holds and whatever time it is. *)
Theorem cached_get_unhashable self endpoint params w :
  cached_get transport self endpoint params w = (Raise (UnhashableParamError "self"), w).
Proof. reflexivity. Qed.

Lemma health_check_run self w :
  health_check transport self w =
  match get transport self "health" None w with
  | (Ok body, w') =>
      (Ok match json_get body "status" with
          | Ok status => json_eq_str status "healthy"
          | Raise _ => false
          end, w')
  | (Raise _, w') => (Ok false, w')
  end.
Proof.
  unfold health_check. rewrite bind_run. unfold attempt. rewrite bind_run.
  destruct (get _ _ _ _ w) as [[body|e] w']; [|reflexivity].
  rewrite bind_run. unfold lift.
  destruct (json_get body "status"); reflexivity.
Qed.

(** C4: whatever the call [get('health')] does, [health_check]
    returns a boolean and raises nothing; the boolean is true
    exactly when the call returned a body whose [status] field is
    the string "healthy", and it is false whenever the call raised. *)
Theorem health_check_never_raises self w :
  ∃ b w', health_check transport self w = (Ok b, w') ∧
    (b = true ↔
       ∃ items w'', get transport self "health" None w = (Ok (JDict items), w'') ∧
                    dict_lookup "status" items = Some (JStr "healthy")) ∧
    (∀ e w'', get transport self "health" None w = (Raise e, w'') → b = false).
Proof.
  rewrite health_check_run.
  destruct (get _ _ _ _ w) as [[body|e] w'].
  - eexists _, _. split; [reflexivity|]. split; [|intros ? ? [=]].
    split.
    + destruct body as [| | | | |?|items]; cbn; try discriminate.
      destruct (dict_lookup "status" items) as [[]|] eqn:Hs; cbn; try discriminate.
      intros Heq. apply String.eqb_eq in Heq. subst. eauto.
    + intros (items & w'' & [= -> ->] & Hs). cbn. by rewrite Hs.
  - exists false, w'. split; [reflexivity|]. split; [|done].
    split; [discriminate|]. intros (? & ? & [=] & _).
Qed.
End ClientFacts.

(** [get] against a host that refuses twice: the third answer comes
    back, after sleeps of 1 and 2. *)
Lemma retry_on_third_attempt_flaky :
  ∃ w', get flaky demo_client "health" None start
        = (Ok (JDict [("status", JStr "healthy")]), w') ∧
        slept w' = [1; 2].
Proof.
  destruct (retry_on_third_attempt flaky 1 demo_client "health" None JNull
              (get_body flaky demo_client "health" None)
              (get_request demo_client "health" None) start
              (ConnectionError "connection refused")
              (ConnectionError "connection refused")
              (or_introl (conj eq_refl eq_refl))) as [Hthird _].
  - lia.
  - reflexivity.
  - reflexivity.
  - destruct (Hthird (JDict [("status", JStr "healthy")])) as (w' & Hrun & Hslept).
    + intros [|[|[|i]]] o Hi; cbn in Hi; inversion Hi; reflexivity.
    + exists w'. split; [exact Hrun|exact Hslept].
Defined.

(** Two calls of [cached_get], 100 apart, against a host that answers:
    both raise, and no request is sent. *)
Example cached_get_twice_steady :
  cached_get steady demo_client "items" None start
  = (Raise (UnhashableParamError "self"), start) ∧
  cached_get steady demo_client "items" None (advance 100 start)
  = (Raise (UnhashableParamError "self"), advance 100 start).
Proof. split; reflexivity. Qed.

(** The health check against an unreachable host is [False]. *)
Lemma health_check_unreachable :
  ∃ w', health_check unreachable demo_client start = (Ok false, w').
Proof.
  destruct (health_check_never_raises unreachable demo_client start)
    as (b & w' & Hrun & _ & Hfalse).
  exists w'. rewrite Hrun. f_equal. f_equal.
  eapply Hfalse. vm_compute. reflexivity.
Defined.

(** ** Masks and rows *)

Section MaskFacts.
Context {X Y : Type}.

Lemma take_mask_nil_r (mask : list bool) : take_mask mask (@nil X) = [].
Proof. by destruct mask. Qed.

Lemma take_mask_fmap (f : X → Y) mask xs :
  take_mask mask (f <$> xs) = f <$> take_mask mask xs.
Proof.
  revert xs. induction mask as [|b mask IH]; intros [|x xs]; cbn; try done.
  destruct b; cbn; by rewrite IH.
Qed.

Lemma take_mask_twice (m1 m2 : list bool) (xs : list X) :
  take_mask (take_mask m1 m2) (take_mask m1 xs) = take_mask (zip_with andb m1 m2) xs.
Proof.
  revert m2 xs. induction m1 as [|b m1 IH]; intros m2 xs; [done|].
  destruct m2 as [|c m2]; [done|].
  destruct xs as [|x xs].
  - cbn. by rewrite take_mask_nil_r.
  - destruct b; cbn; [|apply IH]. destruct c; cbn; by rewrite IH.
Qed.

Lemma take_mask_filter (f : X → bool) (xs : list X) :
  take_mask (f <$> xs) xs = filter (λ x, f x = true) xs.
Proof.
  induction xs as [|x xs IH]; [done|].
  rewrite filter_cons, <- IH. cbn [fmap list_fmap take_mask].
  destruct (f x); case_decide; done.
Qed.
End MaskFacts.

Lemma zip_with_andb_comm (m1 m2 : list bool) :
  zip_with andb m1 m2 = zip_with andb m2 m1.
Proof.
  revert m2. induction m1 as [|b m1 IH]; intros [|c m2]; cbn; try done.
  by rewrite IH, andb_comm.
Qed.

Section FrameFacts.
Context {value : Type} {pandas : Pandas value}.
Implicit Types (df : DataFrame value) (c : column value) (cols : list (column value)).

Lemma find_column_fmap (f : column value → column value) col cols :
  (∀ c, col_name (f c) = col_name c) →
  find_column col (f <$> cols) = f <$> find_column col cols.
Proof.
  intros Hname. induction cols as [|c cols IH]; [done|].
  cbn. rewrite Hname. by destruct (String.eqb _ _).
Qed.

Lemma find_column_elem col cols :
  col ∈ col_name <$> cols → is_Some (find_column col cols).
Proof.
  induction cols as [|c cols IH]; cbn.
  - by intros ?%elem_of_nil.
  - intros [->|Hin]%elem_of_cons.
    + rewrite String.eqb_refl. eauto.
    + destruct (String.eqb _ _); eauto.
Qed.

Lemma heads_tails (n : nat) cols :
  all_of_length (S n) cols →
  ∃ r, heads cols = Some r ∧
       all_of_length n (tails cols) ∧
       ∀ col c, find_column col cols = Some c →
                ∃ x, cells c = x :: cells (tail_column c) ∧ dict_lookup col r = Some x.
Proof.
  induction 1 as [|c cols Hc _ (r & Hr & Ht & Hfind)].
  - exists []. split; [done|]. split; [constructor|]. intros ? ? [=].
  - destruct c as [name ty [|x xs]]; [done|].
    exists ((name, x) :: r). split; [|split].
    + unfold heads in *. cbn. by rewrite Hr.
    + constructor; [|done]. cbn in *. lia.
    + intros col c'. cbn. destruct (String.eqb _ _); [|apply Hfind].
      intros [= <-]. by exists x.
Qed.

Lemma heads_mask_cons (b : bool) mask cols r :
  heads cols = Some r →
  heads (mask_column (true :: mask) <$> cols) = Some r ∧
  tails (mask_column (true :: mask) <$> cols) = mask_column mask <$> tails cols ∧
  mask_column (false :: mask) <$> cols = mask_column mask <$> tails cols.
Proof.
  unfold heads, tails. revert r.
  induction cols as [|c cols IH]; intros r; [by intros [= <-]|].
  destruct c as [name ty [|x xs]]; [done|]. cbn.
  destruct (mapM head_cell cols) as [r'|]; [|done]. intros [= <-].
  by destruct (IH _ eq_refl) as (-> & -> & ->).
Qed.

(** The rows of a masked frame are the masked rows. *)
Lemma rows_from_mask labels : ∀ mask cols,
  all_of_length (length labels) cols →
  rows_from (take_mask mask labels) (mask_column mask <$> cols)
  = take_mask mask (rows_from labels cols).
Proof.
  induction labels as [|l labels IH]; intros mask cols Hlen.
  - rewrite take_mask_nil_r. cbn [rows_from]. by rewrite take_mask_nil_r.
  - destruct mask as [|b mask]; [done|].
    destruct (heads_tails _ _ Hlen) as (r & Hr & Ht & _).
    destruct (heads_mask_cons b mask _ _ Hr) as (Hh & Htl & Hdrop).
    cbn [rows_from]. rewrite Hr. destruct b; cbn [take_mask].
    + cbn [rows_from]. rewrite Hh, Htl. by rewrite IH.
    + rewrite Hdrop. by apply IH.
Qed.

(** The mask of an equality test, read off the rows. *)
Lemma series_mask_rows v col labels : ∀ cols c,
  all_of_length (length labels) cols →
  find_column col cols = Some c →
  (λ x, cell_eq x v) <$> cells c = row_matches col v <$> rows_from labels cols.
Proof.
  induction labels as [|l labels IH]; intros cols c Hlen Hfind.
  - cbn. unfold all_of_length in Hlen. rewrite Forall_forall in Hlen.
    assert (c ∈ cols) as Hc.
    { clear Hlen. induction cols as [|c' cols IHc]; [done|]. cbn in Hfind.
      destruct (String.eqb _ _); [injection Hfind as ->; left|right; auto]. }
    apply Hlen in Hc. by destruct (cells c).
  - destruct (heads_tails _ _ Hlen) as (r & Hr & Ht & Hcell).
    destruct (Hcell _ _ Hfind) as (x & Hx & Hlook).
    cbn [rows_from]. rewrite Hr, Hx. cbn [fmap list_fmap].
    f_equal.
    + unfold row_matches, row_get. cbn. by rewrite Hlook.
    + apply IH; [done|]. unfold tails.
      rewrite find_column_fmap by done. by rewrite Hfind.
Qed.

Lemma wf_all_of_length df : wf_frame df → all_of_length (len df) (columns df).
Proof. by intros [_ ?]. Qed.

Lemma rows_getitem_mask df mask :
  wf_frame df → rows (getitem_mask df mask) = take_mask mask (rows df).
Proof. intros Hwf. apply rows_from_mask, wf_all_of_length, Hwf. Qed.

Lemma getitem_mask_twice df m1 m2 :
  getitem_mask (getitem_mask df m1) (take_mask m1 m2)
  = getitem_mask df (zip_with andb m1 m2).
Proof.
  unfold getitem_mask. cbn. f_equal; [apply take_mask_twice|].
  rewrite <- list_fmap_compose. apply list_fmap_ext. intros _ c _.
  unfold mask_column. cbn. f_equal. apply take_mask_twice.
Qed.
End FrameFacts.

Section HeapFacts.
Context {value : Type} {pandas : Pandas value}.
Implicit Types (df : DataFrame value) (h : gmap nat (DataFrame value)).

Lemma alloc_fresh h : h !! fresh (dom h) = None.
Proof. apply (not_elem_of_dom (D:=gset nat)), is_fresh. Qed.

Lemma alloc_extends h df : h ⊆ <[fresh (dom h) := df]> h.
Proof. apply insert_subseteq, alloc_fresh. Qed.

Lemma allocates_only_ret p : allocates_only (value:=value) p (mret p).
Proof. intros h r h' [= <- <-]. split; [done|]. intros l [= <-]. by left. Qed.

Lemma allocates_only_bind p (m : state_exn (gmap nat (DataFrame value)) nat)
    (k : nat → state_exn (gmap nat (DataFrame value)) nat) :
  allocates_only p m → (∀ q, allocates_only q (k q)) →
  allocates_only p (m ≫= k).
Proof.
  intros Hm Hk h r h'. rewrite bind_run.
  destruct (m h) as [[q|e] h1] eqn:Hrun.
  - destruct (Hm _ _ _ Hrun) as [Hsub Hq]. intros Hrun2.
    destruct (Hk _ _ _ _ Hrun2) as [Hsub2 Hl].
    split; [by etrans|]. intros l Hr.
    destruct (Hl l Hr) as [->|Hnew].
    + by apply Hq.
    + right. by eapply lookup_weaken_None.
  - intros [= <- <-]. by destruct (Hm _ _ _ Hrun).
Qed.

Lemma rebind_allocates p (expr : DataFrame value → outcome (DataFrame value)) :
  allocates_only p (rebind p expr).
Proof.
  intros h r h'. unfold rebind. rewrite bind_run. unfold deref.
  destruct (h !! p) as [df|]; [|by intros [= <- <-]].
  rewrite bind_run. unfold lift, alloc.
  destruct (expr df) as [out|e]; intros [= <- <-]; [|done].
  split; [apply alloc_extends|]. intros l [= <-]. right. apply alloc_fresh.
Qed.

Lemma rebind_run p expr h df out :
  h !! p = Some df → expr df = Ok out →
  rebind p expr h = (Ok (fresh (dom h)), <[fresh (dom h) := out]> h).
Proof.
  intros Hp Hout. unfold rebind. rewrite bind_run. unfold deref. rewrite Hp.
  rewrite bind_run. unfold lift. by rewrite Hout.
Qed.

Lemma filter_loop_allocates items : ∀ p, allocates_only p (filter_loop p items).
Proof.
  induction items as [|[col v] items IH]; intros p; [apply allocates_only_ret|].
  cbn [filter_loop]. apply allocates_only_bind; [|done].
  apply rebind_allocates.
Qed.

Lemma apply_operation_allocates p op params :
  allocates_only p (apply_operation p op params).
Proof.
  unfold apply_operation. repeat case_match.
  - apply filter_loop_allocates.
  - apply rebind_allocates.
  - apply rebind_allocates.
  - apply allocates_only_ret.
Qed.

Lemma operations_loop_allocates operations :
  ∀ p, allocates_only p (operations_loop p operations).
Proof.
  induction operations as [|[op params] rest IH]; intros p; [apply allocates_only_ret|].
  cbn [operations_loop]. apply allocates_only_bind; [|done].
  apply apply_operation_allocates.
Qed.

(** C9: whatever the operations, [process_data] leaves the frame it
    was handed as it was: after the call the caller's reference
    still holds the same table, every object that existed before is
    unchanged, and a returned frame is a new object, not one that
    existed before. *)
Theorem process_data_keeps_input h (df : nat) operations (T : DataFrame value) r h' :
  h !! df = Some T →
  process_data df operations h = (r, h') →
  h' !! df = Some T ∧ h ⊆ h' ∧ ∀ l, r = Ok l → h !! l = None.
Proof.
  intros Hdf. unfold process_data, copy. rewrite !bind_run. unfold deref.
  rewrite Hdf. unfold alloc. intros Hrun.
  destruct (operations_loop_allocates _ _ _ _ _ Hrun) as [Hsub Hres].
  pose proof (alloc_extends h T) as Hsub0.
  assert (h ⊆ h') as Hsub' by by etrans.
  split; [by eapply lookup_weaken|]. split; [done|].
  intros l Hl. destruct (Hres l Hl) as [->|Hnew]; [apply alloc_fresh|].
  by eapply lookup_weaken_None.
Qed.

Lemma apply_operation_unrecognized p op params :
  recognized op = false → apply_operation p op params = mret p.
Proof.
  unfold recognized, apply_operation.
  by destruct (String.eqb op "filter"), (String.eqb op "group"), (String.eqb op "sort").
Qed.

Lemma operations_loop_skips operations : ∀ p h,
  operations_loop p operations h
  = operations_loop p (filter (λ e, recognized e.1 = true) operations) h.
Proof.
  induction operations as [|[op params] rest IH]; intros p h; [done|].
  rewrite filter_cons. cbn [fst]. case_decide as Hrec.
  - cbn [operations_loop]. rewrite !bind_run.
    destruct (apply_operation p op params h) as [[q|e] h1]; [apply IH|done].
  - cbn [operations_loop]. rewrite bind_run.
    rewrite apply_operation_unrecognized by by destruct (recognized op).
    apply IH.
Qed.

(** C10: an entry whose name is not 'filter', 'group' or 'sort' does
    nothing and raises nothing, and [process_data] comes to what it
    comes to on the recognized entries alone, in their order. *)
Theorem process_data_skips_unrecognized (df : nat) operations h :
  process_data df operations h
  = process_data df (filter (λ e, recognized e.1 = true) operations) h
  ∧ ∀ p op params, recognized op = false → apply_operation p op params h = (Ok p, h).
Proof.
  split.
  - unfold process_data. rewrite !bind_run.
    destruct (copy df h) as [[p|e] h1]; [apply operations_loop_skips|done].
  - intros p op params Hrec. by rewrite apply_operation_unrecognized.
Qed.

Lemma filter_expr_run col v df c :
  find_column col (columns df) = Some c →
  filter_expr col (Lit v) df = Ok (getitem_mask df ((λ x, cell_eq x v) <$> cells c)).
Proof. intros Hc. unfold filter_expr, getitem. by rewrite Hc. Qed.

(** The frame left by an equality filter. *)
Lemma filter_expr_rows col v df :
  wf_frame df → col ∈ column_names df →
  ∃ out, filter_expr col (Lit v) df = Ok out ∧
         out = getitem_mask df (row_matches col v <$> rows df) ∧
         rows out = filter (λ r, row_matches col v r = true) (rows df).
Proof.
  intros Hwf [c Hc]%find_column_elem.
  pose proof (wf_all_of_length _ Hwf) as Hlen.
  rewrite (filter_expr_run _ _ _ _ Hc).
  rewrite (series_mask_rows v col (index df) _ _ Hlen Hc).
  eexists. split; [done|]. split; [done|].
  rewrite rows_getitem_mask by done. apply take_mask_filter.
Qed.

Lemma process_filter_run h l df col v out :
  h !! l = Some df → filter_expr col (Lit v) df = Ok out →
  ∃ l' h', process_data l [("filter", [(col, Lit v)])] h = (Ok l', h') ∧
           h' !! l' = Some out.
Proof.
  intros Hl Hout. unfold process_data, copy. rewrite !bind_run.
  unfold deref. rewrite Hl. unfold alloc.
  cbn [operations_loop]. rewrite bind_run.
  unfold apply_operation. cbn [String.eqb Ascii.eqb Bool.eqb].
  cbn [filter_loop]. rewrite bind_run.
  erewrite rebind_run; [|apply lookup_insert_eq|exact Hout].
  eexists _, _. split; [reflexivity|]. apply lookup_insert_eq.
Qed.

(** C5: on a table with a column [col], the filter [col = v] gives a
    table whose rows are the rows of the input that satisfy
    [row[col] == v], in their order: each row of the result
    satisfies it, and each row of the input that satisfies it is in
    the result. *)
Theorem filter_keeps_matching_rows h (l : nat) (df : DataFrame value) col v :
  wf_frame df → h !! l = Some df → col ∈ column_names df →
  ∃ l' h' out,
    process_data l [("filter", [(col, Lit v)])] h = (Ok l', h') ∧
    h' !! l' = Some out ∧
    rows out = filter (λ r, row_matches col v r = true) (rows df) ∧
    (∀ r, r ∈ rows out → row_matches col v r = true) ∧
    (∀ r, r ∈ rows df → row_matches col v r = true → r ∈ rows out).
Proof.
  intros Hwf Hl Hcol.
  destruct (filter_expr_rows col v df Hwf Hcol) as (out & Hout & _ & Hrows).
  destruct (process_filter_run h l df col v out Hl Hout) as (l' & h' & Hrun & Hl').
  exists l', h', out. split; [done|]. split; [done|]. split; [done|].
  rewrite Hrows. split.
  - by intros r [? _]%list_elem_of_filter.
  - intros r Hr Hm. by apply list_elem_of_filter.
Qed.

Lemma zip_with_andb_fmap {X} (f g : X → bool) (xs : list X) :
  zip_with andb (f <$> xs) (g <$> xs) = (λ x, f x && g x) <$> xs.
Proof. induction xs as [|x xs IH]; [done|]. cbn. by rewrite IH. Qed.

(** One equality filter after another is one mask: the conjunction. *)
Lemma filter_expr_twice col1 v1 col2 v2 df :
  wf_frame df → col1 ∈ column_names df → col2 ∈ column_names df →
  ∃ out1, filter_expr col1 (Lit v1) df = Ok out1 ∧
          filter_expr col2 (Lit v2) out1
          = Ok (getitem_mask df ((λ r, row_matches col1 v1 r && row_matches col2 v2 r)
                                   <$> rows df)).
Proof.
  intros Hwf [c1 Hc1]%find_column_elem [c2 Hc2]%find_column_elem.
  pose proof (wf_all_of_length _ Hwf) as Hlen.
  rewrite (filter_expr_run _ _ _ _ Hc1). eexists. split; [done|].
  assert (find_column col2 (columns (getitem_mask df ((λ x, cell_eq x v1) <$> cells c1)))
          = Some (mask_column ((λ x, cell_eq x v1) <$> cells c1) c2)) as Hc2'.
  { cbn. rewrite find_column_fmap by done. by rewrite Hc2. }
  rewrite (filter_expr_run _ _ _ _ Hc2'). f_equal.
  cbn [cells mask_column]. rewrite <- take_mask_fmap, getitem_mask_twice.
  rewrite (series_mask_rows v1 col1 (index df) _ _ Hlen Hc1).
  rewrite (series_mask_rows v2 col2 (index df) _ _ Hlen Hc2).
  by rewrite zip_with_andb_fmap.
Qed.

Lemma process_filter2_run h l df col1 v1 col2 v2 out1 out2 :
  h !! l = Some df →
  filter_expr col1 (Lit v1) df = Ok out1 →
  filter_expr col2 (Lit v2) out1 = Ok out2 →
  ∃ l' h', process_data l [("filter", [(col1, Lit v1); (col2, Lit v2)])] h = (Ok l', h') ∧
           h' !! l' = Some out2.
Proof.
  intros Hl Hout1 Hout2. unfold process_data, copy. rewrite !bind_run.
  unfold deref. rewrite Hl. unfold alloc.
  cbn [operations_loop]. rewrite bind_run.
  unfold apply_operation. cbn [String.eqb Ascii.eqb Bool.eqb].
  cbn [filter_loop]. rewrite bind_run.
  erewrite rebind_run; [|apply lookup_insert_eq|exact Hout1].
  rewrite bind_run.
  erewrite rebind_run; [|apply lookup_insert_eq|exact Hout2].
  eexists _, _. split; [reflexivity|]. apply lookup_insert_eq.
Qed.

Lemma filtered_twice_run h l df col1 v1 col2 v2 :
  wf_frame df → h !! l = Some df →
  col1 ∈ column_names df → col2 ∈ column_names df →
  filtered_twice h l col1 v1 col2 v2
    (getitem_mask df ((λ r, row_matches col1 v1 r && row_matches col2 v2 r) <$> rows df)).
Proof.
  intros Hwf Hl H1 H2.
  destruct (filter_expr_twice col1 v1 col2 v2 df Hwf H1 H2) as (out1 & Ho1 & Ho2).
  destruct (process_filter_run h l df col1 v1 out1 Hl Ho1) as (l1 & h1 & Hrun1 & Hl1).
  destruct (process_filter_run h1 l1 out1 col2 v2 _ Hl1 Ho2) as (l2 & h2 & Hrun2 & Hl2).
  by exists l1, h1, l2, h2.
Qed.

(** C8: filtering by [col1 = v1] and then by [col2 = v2], filtering
    in the other order, and filtering once with both conditions all
    end with the same table, whose rows are the rows of the input
    that satisfy both conditions. *)
Theorem filters_compose h (l : nat) (df : DataFrame value) col1 v1 col2 v2 :
  wf_frame df → h !! l = Some df →
  col1 ∈ column_names df → col2 ∈ column_names df →
  ∃ both,
    rows both
      = filter (λ r, row_matches col1 v1 r && row_matches col2 v2 r = true) (rows df) ∧
    filtered_twice h l col1 v1 col2 v2 both ∧
    filtered_twice h l col2 v2 col1 v1 both ∧
    ∃ l' h', process_data l [("filter", [(col1, Lit v1); (col2, Lit v2)])] h = (Ok l', h') ∧
             h' !! l' = Some both.
Proof.
  intros Hwf Hl H1 H2. eexists. split; [|split; [|split]].
  - rewrite rows_getitem_mask by done.
    apply (take_mask_filter (λ r, row_matches col1 v1 r && row_matches col2 v2 r)).
  - by apply filtered_twice_run.
  - erewrite list_fmap_ext; [by apply filtered_twice_run|].
    intros _ r _. apply andb_comm.
  - destruct (filter_expr_twice col1 v1 col2 v2 df Hwf H1 H2) as (out1 & Ho1 & Ho2).
    by apply (process_filter2_run h l df col1 v1 col2 v2 out1).
Qed.
End HeapFacts.

Lemma people_wf : wf_frame people.
Proof.
  split; [apply (bool_decide_unpack _); vm_compute; exact I|].
  repeat constructor.
Defined.

(** Filtering [people] by [city = "Oslo"] keeps the first and the
    third row. *)
Lemma filter_keeps_matching_rows_people :
  ∃ l' h' out,
    process_data 0%nat [("filter", [("city", Lit (VStr "Oslo"))])] {[0%nat := people]}
      = (Ok l', h') ∧
    h' !! l' = Some out ∧
    rows out = [(0, [("city", VStr "Oslo"); ("age", VInt 31); ("member", VBool true)]);
                (2, [("city", VStr "Oslo"); ("age", VInt 27); ("member", VBool true)])].
Proof.
  destruct (filter_keeps_matching_rows {[0%nat := people]} 0%nat people
              "city" (VStr "Oslo") people_wf)
    as (l' & h' & out & Hrun & Hout & Hrows & _).
  - reflexivity.
  - apply (bool_decide_unpack _). vm_compute. exact I.
  - exists l', h', out. split; [exact Hrun|]. split; [exact Hout|].
    rewrite Hrows. reflexivity.
Defined.

(** On [people], [city = "Oslo"] and [age = 31] in either order, or
    at once, leave the first row. *)
Lemma filters_compose_people :
  ∃ both,
    rows both = [(0, [("city", VStr "Oslo"); ("age", VInt 31); ("member", VBool true)])] ∧
    filtered_twice {[0%nat := people]} 0%nat "city" (VStr "Oslo") "age" (VInt 31) both ∧
    filtered_twice {[0%nat := people]} 0%nat "age" (VInt 31) "city" (VStr "Oslo") both.
Proof.
  destruct (filters_compose {[0%nat := people]} 0%nat people
              "city" (VStr "Oslo") "age" (VInt 31) people_wf)
    as (both & Hrows & Hfirst & Hsecond & _).
  - reflexivity.
  - apply (bool_decide_unpack _). vm_compute. exact I.
  - apply (bool_decide_unpack _). vm_compute. exact I.
  - exists both. split; [rewrite Hrows; reflexivity|]. split; [exact Hfirst|exact Hsecond].
Defined.

(** The table handed to [process_data] is still there after a filter
    and an unknown operation. *)
Lemma process_data_keeps_input_people :
  (process_data 0%nat [("filter", [("age", Lit (VInt 31))]); ("pivot", [])]
                {[0%nat := people]}).2 !! 0%nat = Some people.
Proof.
  destruct (process_data 0%nat [("filter", [("age", Lit (VInt 31))]); ("pivot", [])]
                         {[0%nat := people]}) as [r h'] eqn:Hrun.
  destruct (process_data_keeps_input {[0%nat := people]} 0%nat
              [("filter", [("age", Lit (VInt 31))]); ("pivot", [])] people r h')
    as (Hkept & _).
  - reflexivity.
  - exact Hrun.
  - exact Hkept.
Defined.

(** An entry named 'pivot' changes nothing. *)
Lemma process_data_skips_pivot :
  process_data 0%nat [("pivot", [("by", Names ["city"])]);
                      ("filter", [("age", Lit (VInt 31))])] {[0%nat := people]}
  = process_data 0%nat [("filter", [("age", Lit (VInt 31))])] {[0%nat := people]}.
Proof.
  destruct (process_data_skips_unrecognized 0%nat
              [("pivot", [("by", Names ["city"])]);
               ("filter", [("age", Lit (VInt 31))])] {[0%nat := people]}) as [Hskip _].
  exact Hskip.
Defined.

(** ** The summary *)

Section SummaryFacts.
Context {value : Type} {pandas : Pandas value}.
Implicit Types (df : DataFrame value) (c : column value) (cols : list (column value)).

Lemma mapM_outcome_total {X Y} (f : X → outcome Y) (xs : list X) :
  (∀ x, x ∈ xs → ∃ y, f x = Ok y) → ∃ ys, mapM f xs = Ok ys.
Proof.
  induction xs as [|x xs IH]; intros Hf; [by exists []|].
  destruct (Hf x) as [y Hy]; [left|].
  destruct IH as [ys Hys]; [intros x' Hx'; apply Hf; by right|].
  exists (y :: ys). cbn. rewrite Hy. cbn. by rewrite Hys.
Qed.

Lemma select_dtypes_names df include name :
  name ∈ column_names (select_dtypes df include) → name ∈ column_names df.
Proof.
  unfold column_names, select_dtypes. cbn.
  intros (c & -> & [_ Hc]%list_elem_of_filter)%list_elem_of_fmap.
  apply list_elem_of_fmap. eauto.
Qed.

Lemma getitem_present df name :
  name ∈ column_names df → ∃ c, getitem df name = Ok c.
Proof.
  intros [c Hc]%find_column_elem. exists c. unfold getitem. by rewrite Hc.
Qed.

(** The summary is always produced, and has this shape. *)
Lemma generate_summary_stats_run df :
  ∃ numeric_summary categorical_summary,
    generate_summary_stats df
    = Ok [("row_count", SInt (len df));
          ("column_count", SInt (length (columns df)));
          ("numeric_columns", SNames (column_names (select_dtypes df [int64; float64])));
          ("categorical_columns",
           SNames (column_names (select_dtypes df [object_; category])));
          ("missing_values", SMissing (missing_values df));
          ("numeric_summary", SDescribe numeric_summary);
          ("categorical_summary", SFrequencies categorical_summary)] ∧
    (column_names (select_dtypes df [int64; float64]) = [] → numeric_summary = []) ∧
    (column_names (select_dtypes df [object_; category]) = [] → categorical_summary = []).
Proof.
  unfold generate_summary_stats.
  set (numeric_cols := column_names (select_dtypes df [int64; float64])).
  set (categorical_cols := column_names (select_dtypes df [object_; category])).
  assert (∃ ns, (if (0 <? length numeric_cols)%nat
                 then sub ← getitem_list df numeric_cols; mret (describe sub)
                 else mret []) = Ok ns ∧ (numeric_cols = [] → ns = [])) as (ns & -> & Hns).
  { destruct numeric_cols as [|n rest] eqn:Hcols; [by exists []|].
    destruct (mapM_outcome_total (getitem df) (n :: rest)) as [cols Hcols'].
    { intros x Hx. apply getitem_present. rewrite <- Hcols in Hx.
      by eapply select_dtypes_names. }
    eexists. split; [|intros [=]]. cbn [length Nat.ltb Nat.leb].
    unfold getitem_list. rewrite Hcols'. reflexivity. }
  assert (∃ cs, (if (0 <? length categorical_cols)%nat
                 then mapM (λ col, series ← getitem df col; mret (col, value_counts series))
                           categorical_cols
                 else mret []) = Ok cs ∧ (categorical_cols = [] → cs = []))
    as (cs & -> & Hcs).
  { destruct categorical_cols as [|n rest] eqn:Hcols; [by exists []|].
    destruct (mapM_outcome_total
                (λ col, series ← getitem df col; mret (col, value_counts series))
                (n :: rest)) as [out Hout].
    { intros x Hx. destruct (getitem_present df x) as [c Hc].
      - rewrite <- Hcols in Hx. by eapply select_dtypes_names.
      - eexists. rewrite Hc. reflexivity. }
    exists out. split; [exact Hout|intros [=]]. }
  by exists ns, cs.
Qed.

(** C7: for every table, the empty one included, the summary is
    produced, its [row_count] is the number of rows and its
    [column_count] the number of columns; and when the list of
    numeric (of categorical) columns is empty, the section
    [numeric_summary] (or [categorical_summary]) is there and is
    empty. *)
Theorem summary_counts df :
  ∃ stats,
    generate_summary_stats df = Ok stats ∧
    dict_lookup "row_count" stats = Some (SInt (length (index df))) ∧
    dict_lookup "column_count" stats = Some (SInt (length (columns df))) ∧
    (dict_lookup "numeric_columns" stats = Some (SNames []) →
     dict_lookup "numeric_summary" stats = Some (SDescribe [])) ∧
    (dict_lookup "categorical_columns" stats = Some (SNames []) →
     dict_lookup "categorical_summary" stats = Some (SFrequencies [])).
Proof.
  destruct (generate_summary_stats_run df) as (ns & cs & -> & Hns & Hcs).
  eexists. split; [reflexivity|]. cbn.
  split; [done|]. split; [done|]. split.
  - intros [= Hempty]. by rewrite Hns.
  - intros [= Hempty]. by rewrite Hcs.
Qed.

Lemma column_names_select df include :
  NoDup (column_names df) →
  ∀ c, c ∈ columns df → 
    (col_name c ∈ column_names (select_dtypes df include) ↔ col_dtype c ∈ include).
Proof.
  intros Hnd c Hc. unfold column_names, select_dtypes in *. cbn. split.
  - intros (c' & Hname & [Hty Hc']%list_elem_of_filter)%list_elem_of_fmap.
    assert (c = c') as ->; [|done].
    clear Hty. induction (columns df) as [|d cols IH]; [by apply elem_of_nil in Hc|].
    cbn in Hnd. apply NoDup_cons in Hnd as [Hd Hnd].
    apply elem_of_cons in Hc as [->|Hc]; apply elem_of_cons in Hc' as [->|Hc']; try done.
    + exfalso. apply Hd. rewrite Hname. apply list_elem_of_fmap. eauto.
    + exfalso. apply Hd. rewrite <- Hname. apply list_elem_of_fmap. eauto.
    + by apply IH.
  - intros Hty. apply list_elem_of_fmap. exists c. split; [done|].
    by apply list_elem_of_filter.
Qed.

(** C2, as the code has it: on a table with distinct column names a
    column is listed as numeric exactly when its type is int64 or
    float64, as categorical exactly when its type is object or
    category, and never as both; a column of any other type is in
    neither list. *)
Theorem partition_by_dtype df :
  wf_frame df →
  ∃ stats numeric categorical,
    generate_summary_stats df = Ok stats ∧
    dict_lookup "numeric_columns" stats = Some (SNames numeric) ∧
    dict_lookup "categorical_columns" stats = Some (SNames categorical) ∧
    ∀ c, c ∈ columns df →
      (col_name c ∈ numeric ↔ col_dtype c = int64 ∨ col_dtype c = float64) ∧
      (col_name c ∈ categorical ↔ col_dtype c = object_ ∨ col_dtype c = category) ∧
      ¬ (col_name c ∈ numeric ∧ col_name c ∈ categorical).
Proof.
  intros [Hnd _].
  destruct (generate_summary_stats_run df) as (ns & cs & -> & _ & _).
  eexists _, _, _. split; [reflexivity|]. cbn. split; [done|]. split; [done|].
  intros c Hc.
  pose proof (column_names_select df [int64; float64] Hnd c Hc) as Hnum.
  pose proof (column_names_select df [object_; category] Hnd c Hc) as Hcat.
  rewrite Hnum, Hcat. rewrite !elem_of_cons, !elem_of_nil.
  repeat split; try tauto. intros [[?|[?|[]]] [?|[?|[]]]]; congruence.
Qed.
End SummaryFacts.

(** The summary of the table without rows or columns. *)
Lemma summary_counts_no_rows :
  ∃ stats,
    generate_summary_stats no_rows = Ok stats ∧
    dict_lookup "row_count" stats = Some (SInt 0) ∧
    dict_lookup "column_count" stats = Some (SInt 0) ∧
    dict_lookup "numeric_summary" stats = Some (SDescribe []) ∧
    dict_lookup "categorical_summary" stats = Some (SFrequencies []).
Proof.
  destruct (summary_counts no_rows) as (stats & Hrun & Hrows & Hcols & Hnum & Hcat).
  exists stats. split; [exact Hrun|]. split; [exact Hrows|]. split; [exact Hcols|].
  assert (stats = [("row_count", SInt 0); ("column_count", SInt 0);
                   ("numeric_columns", SNames []); ("categorical_columns", SNames []);
                   ("missing_values", SMissing []); ("numeric_summary", SDescribe []);
                   ("categorical_summary", SFrequencies [])]) as Hstats.
  { vm_compute in Hrun. by injection Hrun as <-. }
  split; [apply Hnum|apply Hcat]; rewrite Hstats; reflexivity.
Defined.

(** On [people], "age" is numeric, "city" categorical, and "member",
    a column of booleans, neither. *)
Lemma partition_by_dtype_people :
  ∃ stats,
    generate_summary_stats people = Ok stats ∧
    dict_lookup "numeric_columns" stats = Some (SNames ["age"]) ∧
    dict_lookup "categorical_columns" stats = Some (SNames ["city"]).
Proof.
  destruct (partition_by_dtype people people_wf)
    as (stats & numeric & categorical & Hrun & Hnum & Hcat & _).
  exists stats. split; [exact Hrun|].
  vm_compute in Hrun. injection Hrun as <-.
  split; reflexivity.
Defined.

(** C2 fails as worded: the column "member" of [people] holds
    booleans and is in neither list. *)
Lemma partition_not_total : ¬ partition_total_disjoint people.
Proof.
  intros (stats & numeric & categorical & Hrun & Hnum & Hcat & Hall).
  vm_compute in Hrun. injection Hrun as <-.
  cbn in Hnum, Hcat. injection Hnum as <-. injection Hcat as <-.
  destruct (Hall {| col_name := "member"; col_dtype := bool_;
                    cells := [VBool true; VBool false; VBool true; VBool true] |})
    as [[Hin _]|[_ Hin]].
  - unfold people. cbn [columns]. set_solver.
  - apply list_elem_of_singleton in Hin. discriminate.
  - apply list_elem_of_singleton in Hin. discriminate.
Qed.

(** ** The loader *)

Lemma endswith_last s suffix (i : nat) ch :
  endswith s suffix = true →
  String.length suffix = S i →
  String.get i suffix = Some ch →
  String.get (String.length s - 1) s = Some ch.
Proof.
  unfold endswith. intros [Hlen Heq%String.eqb_eq]%andb_true_iff Hsuf Hget.
  apply Nat.leb_le in Hlen.
  rewrite <- Heq in Hget. rewrite substring_correct1 in Hget by lia.
  rewrite <- Hget. f_equal. lia.
Qed.

Lemma endswith_csv_not_xlsx s :
  endswith s ".csv" = true → endswith s ".xlsx" = false.
Proof.
  intros Hcsv. destruct (endswith s ".xlsx") eqn:Hxlsx; [|done].
  pose proof (endswith_last s ".csv" 3 "v"%char Hcsv eq_refl eq_refl) as H1.
  pose proof (endswith_last s ".xlsx" 4 "x"%char Hxlsx eq_refl eq_refl) as H2.
  congruence.
Qed.

Lemma prefix_refl s : String.prefix s s = true.
Proof.
  induction s as [|c s IH]; [done|]. cbn.
  destruct (ascii_dec c c); [done|congruence].
Qed.

Lemma contains_unfold haystack needle :
  contains haystack needle
  = String.prefix needle haystack ||
    match haystack with
    | EmptyString => false
    | String _ rest => contains rest needle
    end.
Proof. by destruct haystack. Qed.

Lemma contains_suffix p s : contains (p +:+ s) s = true.
Proof.
  induction p as [|c p IH].
  - change ("" +:+ s) with s. by rewrite contains_unfold, prefix_refl.
  - change (String c p +:+ s) with (String c (p +:+ s)).
    rewrite contains_unfold, IH. apply orb_true_r.
Qed.

Section LoaderFacts.
Context {value : Type} {pandas : Pandas value}.

(** C6, as the code has it: a named stream or a path whose name ends
    in .csv goes to the CSV reader and one whose name ends in .xlsx
    to the spreadsheet reader; any other name is rejected with a
    [ValueError] whose message carries the name; an object that is
    neither is rejected with a [ValueError] whose message is the
    fixed text "Invalid file input type".  With the reference
    reader, data.csv holding [a,b], [1,2], [3,4] loads as a table of
    2 rows and 2 columns, and data.txt is rejected whatever it
    holds. *)
Theorem load_data_by_extension :
  (∀ name content, endswith name ".csv" = true →
     load_data (UploadedFile name content) = read_csv (Buffer content)) ∧
  (∀ path, endswith path ".csv" = true →
     load_data (PathStr path) = read_csv (Path path)) ∧
  (∀ name content, endswith name ".xlsx" = true →
     load_data (UploadedFile name content) = read_excel (Buffer content)) ∧
  (∀ path, endswith path ".xlsx" = true →
     load_data (PathStr path) = read_excel (Path path)) ∧
  (∀ name content, endswith name ".csv" = false → endswith name ".xlsx" = false →
     load_data (UploadedFile name content)
       = Raise (ValueError ("Unsupported file format: " +:+ name)) ∧
     carries (ValueError ("Unsupported file format: " +:+ name)) name = true) ∧
  (∀ path, endswith path ".csv" = false → endswith path ".xlsx" = false →
     load_data (PathStr path)
       = Raise (ValueError ("Unsupported file format: " +:+ path)) ∧
     carries (ValueError ("Unsupported file format: " +:+ path)) path = true) ∧
  (∀ o, load_data (OtherObject o) = Raise (ValueError "Invalid file input type")) ∧
  (∃ df, load_data (pandas:=reference_pandas) (UploadedFile "data.csv" csv_example) = Ok df ∧
         len df = 2%nat ∧ length (columns df) = 2%nat) ∧
  (∀ content, load_data (UploadedFile "data.txt" content)
              = Raise (ValueError "Unsupported file format: data.txt")).
Proof.
  split; [|split; [|split; [|split; [|split; [|split; [|split; [|split]]]]]]].
  - intros name content Hcsv. cbn. by rewrite Hcsv.
  - intros path Hcsv. cbn. by rewrite Hcsv.
  - intros name content Hx. cbn. rewrite Hx.
    destruct (endswith name ".csv") eqn:Hcsv; [|done].
    apply endswith_csv_not_xlsx in Hcsv. congruence.
  - intros path Hx. cbn. rewrite Hx.
    destruct (endswith path ".csv") eqn:Hcsv; [|done].
    apply endswith_csv_not_xlsx in Hcsv. congruence.
  - intros name content Hcsv Hxlsx. cbn. rewrite Hcsv, Hxlsx.
    split; [done|apply contains_suffix].
  - intros path Hcsv Hxlsx. cbn. rewrite Hcsv, Hxlsx.
    split; [done|apply contains_suffix].
  - done.
  - eexists. split; [vm_compute; reflexivity|]. split; reflexivity.
  - done.
Qed.
End LoaderFacts.


(** A file named report.xlsx goes to the spreadsheet reader, and one
    named notes.md is rejected by name. *)
Lemma load_data_by_extension_reference :
  load_data (value:=cell) (UploadedFile "report.xlsx" "PK") = read_excel (Buffer "PK") ∧
  load_data (value:=cell) (UploadedFile "notes.md" "# notes")
  = Raise (ValueError "Unsupported file format: notes.md").
Proof.
  destruct (load_data_by_extension (value:=cell))
    as (_ & _ & Hxlsx & _ & Hother & _).
  split.
  - apply Hxlsx. reflexivity.
  - apply Hother; reflexivity.
Defined.

(** C6 fails as worded: the error for the integer 42 does not carry
    its type. *)
Lemma rejection_omits_type : ¬ rejects_naming_type (value:=cell) (PyInt 42).
Proof. intros (e & [= <-] & Hc). vm_compute in Hc. discriminate. Qed.

(** * Further properties *)

(** ** Retrying *)

Section RetryFacts.
Variable transport : nat → request → outcome response.




(** X3: with [max_retries] zero or negative the wrapped function is
    never called: the call raises the [TypeError] of [raise None] and
    leaves the world as it was. *)
Theorem retry_without_attempts {A} (max_retries delay : Z) (func : M A) w :
  max_retries ≤ 0 →
  retry_on_failure max_retries delay func w
  = (Raise (TypeError "exceptions must derive from BaseException"), w).
Proof.
  intros Hle. unfold retry_on_failure, range.
  replace (Z.to_nat max_retries) with 0%nat by lia. reflexivity.
Qed.

(** X4: with a negative delay above the negated limit of
    [time.sleep] and at least two attempts allowed, a first attempt
    that fails with a transport error is not followed by a second
    one: [time.sleep] raises [ValueError], which takes the place of
    the transport error, after one request. *)
Theorem retry_negative_delay (max_retries delay : Z) (func : M json) req w e :
  one_request transport func req →
  - sleep_limit < delay < 0 →
  2 ≤ max_retries →
  call_result (transport (length (sent w)) req) = Raise e →
  is_request_exception e = true →
  retry_on_failure max_retries delay func w
  = (Raise (ValueError "sleep length must be non-negative"), record req w).
Proof.
  intros Hf [_ Hd] Hmax Hfirst He.
  unfold retry_on_failure, range.
  replace (Z.to_nat max_retries) with (S (Z.to_nat max_retries - 1)) by lia.
  cbn [seq fmap list_fmap].
  rewrite retry_loop_cons, Hf, Hfirst, He.
  destruct (Z.ltb_spec (Z.of_nat 0) (max_retries - 1)) as [_|?]; [|lia].
  unfold sleep. destruct (Z.ltb_spec (delay * (Z.of_nat 0 + 1)) 0) as [_|?]; [done|lia].
Qed.

(** What three attempts with a delay of 1 cost at most. *)
Lemma retry_three_effort (func : M json) req w r w' :
  one_request transport func req →
  retry_on_failure 3 1 func w = (r, w') →
  ∃ n, (1 ≤ n ≤ 3)%nat ∧
       sent w' = sent w ++ replicate n req ∧
       slept w' = slept w ++ take (n - 1) [1; 2] ∧
       cache w' = cache w.
Proof.
  intros Hf. unfold retry_on_failure. change (range 3) with [0; 1; 2].
  rewrite retry_loop_cons, Hf.
  destruct (call_result _) as [v|e1].
  { intros [= <- <-]. exists 1%nat. cbn. rewrite app_nil_r. split; [lia|done]. }
  destruct (is_request_exception e1).
  2:{ intros [= <- <-]. exists 1%nat. cbn. rewrite app_nil_r. split; [lia|done]. }
  change (0 <? 3 - 1) with true. cbv iota. rewrite sleep_run by lia.
  rewrite retry_loop_cons, Hf.
  destruct (call_result _) as [v|e2].
  { intros [= <- <-]. exists 2%nat. cbn. rewrite <- !app_assoc. split; [lia|done]. }
  destruct (is_request_exception e2).
  2:{ intros [= <- <-]. exists 2%nat. cbn. rewrite <- !app_assoc. split; [lia|done]. }
  change (1 <? 3 - 1) with true. cbv iota. rewrite sleep_run by lia.
  rewrite retry_loop_cons, Hf.
  destruct (call_result _) as [v|e3].
  { intros [= <- <-]. exists 3%nat. cbn. rewrite <- !app_assoc. split; [lia|done]. }
  destruct (is_request_exception e3).
  2:{ intros [= <- <-]. exists 3%nat. cbn. rewrite <- !app_assoc. split; [lia|done]. }
  change (2 <? 3 - 1) with false. cbv iota.
  intros [= <- <-]. exists 3%nat. cbn. rewrite <- !app_assoc. split; [lia|done].
Qed.

(** X5: whatever the network does, one call of [get] or of [post]
    sends its request between one and three times and nothing else,
    sleeps 1 after the first and 2 after the second of the requests
    that were followed by another, and leaves the cache alone. *)
Theorem get_post_effort self endpoint params data w r w' :
  (get transport self endpoint params w = (r, w') →
   ∃ n, (1 ≤ n ≤ 3)%nat ∧
        sent w' = sent w ++ replicate n (get_request self endpoint params) ∧
        slept w' = slept w ++ take (n - 1) [1; 2] ∧
        cache w' = cache w) ∧
  (post transport self endpoint data w = (r, w') →
   ∃ n, (1 ≤ n ≤ 3)%nat ∧
        sent w' = sent w ++ replicate n (post_request self endpoint data) ∧
        slept w' = slept w ++ take (n - 1) [1; 2] ∧
        cache w' = cache w).
Proof.
  split; intros Hrun.
  - eapply retry_three_effort; [apply get_body_one_request|exact Hrun].
  - eapply retry_three_effort; [apply post_body_one_request|exact Hrun].
Qed.

(** X6: a response with an error status (400 to 599) counts as a
    failed attempt and is retried like a transport failure, whatever
    its body: after three such responses [get] raises the [HTTPError]
    of the third status, having sent three requests and slept 1 and
    2. *)
Theorem get_retries_error_statuses self endpoint params w r1 r2 r3 :
  transport (length (sent w)) (get_request self endpoint params) = Ok r1 →
  transport (length (sent w) + 1) (get_request self endpoint params) = Ok r2 →
  transport (length (sent w) + 2) (get_request self endpoint params) = Ok r3 →
  400 ≤ status_code r1 < 600 →
  400 ≤ status_code r2 < 600 →
  400 ≤ status_code r3 < 600 →
  ∃ w', get transport self endpoint params w = (Raise (HTTPError (status_code r3)), w') ∧
        slept w' = slept w ++ [1; 2] ∧
        sent w' = sent w ++ replicate 3 (get_request self endpoint params).
Proof.
  intros H1 H2 H3 S1 S2 S3.
  assert (Hstatus : ∀ r, 400 ≤ status_code r < 600 →
            call_result (Ok r) = Raise (HTTPError (status_code r))).
  { intros r Hr. cbn.
    destruct (Z.leb_spec 400 (status_code r)); [|lia].
    destruct (Z.ltb_spec (status_code r) 600); [done|lia]. }
  destruct (retry_three_attempts transport 1 (get_body transport self endpoint params)
              (get_request self endpoint params) w
              (HTTPError (status_code r1)) (HTTPError (status_code r2))
              (Raise (HTTPError (status_code r3))))
    as (w' & Hrun & Hslept & Hsent); try done.
  - apply get_body_one_request.
  - intros [|[|[|i]]] o Hi; cbn in Hi; inversion Hi; subst.
    + by rewrite Nat.add_0_r, H1, Hstatus.
    + by rewrite H2, Hstatus.
    + by rewrite H3, Hstatus.
  - by intros ? [= <-].
  - exists w'. split; [exact Hrun|]. split; [exact Hslept|exact Hsent].
Qed.
End RetryFacts.



Lemma retry_without_attempts_zero :
  retry_on_failure 0 1 (get_body steady demo_client "items" None) start
  = (Raise (TypeError "exceptions must derive from BaseException"), start).
Proof. apply (retry_without_attempts 0 1). lia. Defined.

Lemma retry_negative_delay_unreachable :
  retry_on_failure 3 (-1) (get_body unreachable demo_client "items" None) start
  = (Raise (ValueError "sleep length must be non-negative"),
     record (get_request demo_client "items" None) start).
Proof.
  apply (retry_negative_delay unreachable 3 (-1) _ _ start
           (ConnectionError "no route to host")).
  - apply get_body_one_request.
  - unfold sleep_limit. lia.
  - lia.
  - reflexivity.
  - reflexivity.
Defined.

(** [get] against the host that refuses twice sends three requests. *)
Lemma get_post_effort_flaky :
  ∃ n, (1 ≤ n ≤ 3)%nat ∧
       sent (get flaky demo_client "health" None start).2
       = replicate n (get_request demo_client "health" None).
Proof.
  destruct (get flaky demo_client "health" None start) as [r w'] eqn:Hrun.
  destruct (get_post_effort flaky demo_client "health" None JNull start r w')
    as [Hget _].
  destruct (Hget Hrun) as (n & Hn & Hsent & _).
  exists n. split; [exact Hn|exact Hsent].
Defined.

(** Three answers with status 503. *)
Lemma get_retries_error_statuses_overloaded :
  ∃ w', get overloaded demo_client "items" None start = (Raise (HTTPError 503), w') ∧
        slept w' = [1; 2].
Proof.
  destruct (get_retries_error_statuses overloaded demo_client "items" None start
              {| status_code := 503; decoded := Ok JNull |}
              {| status_code := 503; decoded := Ok JNull |}
              {| status_code := 503; decoded := Ok JNull |})
    as (w' & Hrun & Hslept & _); try reflexivity; try (cbn; lia).
  exists w'. split; [exact Hrun|exact Hslept].
Defined.

(** ** The address of a request and the construction of a client *)

Lemma lstrip_slashes n e : lstrip_slash (slashes n +:+ e) = lstrip_slash e.
Proof. induction n as [|n IH]; [done|]. exact IH. Qed.

Lemma lstrip_no_leading_slash e t : lstrip_slash e ≠ "/" +:+ t.
Proof.
  induction e as [|c e IH]; [done|]. cbn.
  destruct (Ascii.eqb_spec c "/") as [->|Hc]; [exact IH|].
  destruct c as [[] [] [] [] [] [] [] []]; try (intros [=]; done).
Qed.

(** X9: leading slashes of the endpoint do not change the request
    that [get] or [post] sends: the address is the base address of
    the client, one slash, and the endpoint without its leading
    slashes, so that what follows that slash never starts with a
    slash. *)
Theorem request_url_ignores_leading_slashes (self : APIClient) e (m : nat) params data :
  get_request self (slashes m +:+ e) params = get_request self e params ∧
  post_request self (slashes m +:+ e) data = post_request self e data ∧
  req_url (get_request self e params) = base_url self +:+ "/" +:+ lstrip_slash e ∧
  (∀ t, lstrip_slash e ≠ "/" +:+ t).
Proof.
  split; [|split; [|split; [done|]]].
  - unfold get_request, endpoint_url. by rewrite lstrip_slashes.
  - unfold post_request, endpoint_url. by rewrite lstrip_slashes.
  - apply lstrip_no_leading_slash.
Qed.

(** X10: the constructor of [APIClient] never returns: whatever its
    arguments and the environment, [_init_session] raises
    [UnhashableParamError] for [self], after the missing-key warning
    when there is no key.  So the dashboard never holds a client: it
    stores [None] when [API_KEY] or [API_BASE_URL] is missing or
    empty, and its start-up raises when both are set. *)
Theorem api_client_never_constructed base_url_arg api_key_arg env_key env_url :
  (APIClient_init base_url_arg api_key_arg env_key).1
  = Raise (UnhashableParamError "self") ∧
  ((APIClient_init base_url_arg api_key_arg env_key).2 = [] ↔
   truthy (py_or api_key_arg env_key) = true) ∧
  (session_api_client env_key env_url).1
  = (if truthy env_key && truthy env_url
     then Raise (UnhashableParamError "self") else Ok None) ∧
  (∀ self, (session_api_client env_key env_url).1 ≠ Ok (Some self)).
Proof.
  assert (Hsession : (session_api_client env_key env_url).1
                     = (if truthy env_key && truthy env_url
                        then Raise (UnhashableParamError "self") else Ok None)).
  { unfold session_api_client.
    destruct env_key as [[|c k]|]; try reflexivity.
    destruct env_url as [[|d url]|]; reflexivity. }
  split; [reflexivity|]. split; [|split; [exact Hsession|]].
  - cbn [APIClient_init snd]. by destruct (truthy (py_or api_key_arg env_key)).
  - intros self. rewrite Hsession. by destruct (truthy env_key && truthy env_url).
Qed.

(** ** Streaming *)

Section StreamFacts.
Variable transport : nat → request → outcome response.
Variable iter_lines : response → list string.
Variable loads : string → outcome json.

(** Reading on from a suspended generator whose lines all decode. *)
Lemma consume_decoded lines : ∀ items (n : nat) w,
  mapM loads (filter (λ l, l ≠ "") lines) = Ok items →
  (length items < n)%nat →
  consume transport iter_lines loads n (Suspended lines) w
  = (items, Stopped, Exhausted, w).
Proof.
  induction lines as [|line lines IH]; intros items n w Hdec Hn.
  - cbn in Hdec. injection Hdec as <-. destruct n as [|n]; [cbn in Hn; lia|done].
  - destruct n as [|n]; [lia|].
    rewrite filter_cons in Hdec. cbn [consume next_item resume].
    destruct (String.eqb_spec line "") as [->|Hline].
    + rewrite decide_False in Hdec by (intros Hne; by apply Hne).
      specialize (IH items (S n) w Hdec Hn). exact IH.
    + rewrite decide_True in Hdec by done. cbn in Hdec.
      destruct (loads line) as [v|e]; [|done]. cbn in Hdec.
      destruct (mapM loads (filter (λ l, l ≠ "") lines)) as [rest|e] eqn:Hrest; [|done].
      cbn in Hdec. injection Hdec as <-. cbn [length] in Hn.
      rewrite (IH rest n w eq_refl) by lia. done.
Qed.

(** A consumer that stops early gets the first items and leaves the
    generator suspended or finished, never failed. *)
Lemma consume_early lines : ∀ items (n : nat) w,
  mapM loads (filter (λ l, l ≠ "") lines) = Ok items →
  (n ≤ length items)%nat →
  ∃ g, consume transport iter_lines loads n (Suspended lines) w
       = (take n items, Abandoned, g, w).
Proof.
  induction lines as [|line lines IH]; intros items n w Hdec Hn.
  - cbn in Hdec. injection Hdec as <-. cbn in Hn.
    assert (n = 0%nat) as -> by lia. by eexists.
  - destruct n as [|n]; [by eexists|].
    rewrite filter_cons in Hdec. cbn [consume next_item resume].
    destruct (String.eqb_spec line "") as [->|Hline].
    + rewrite decide_False in Hdec by (intros Hne; by apply Hne).
      exact (IH items (S n) w Hdec Hn).
    + rewrite decide_True in Hdec by done. cbn in Hdec.
      destruct (loads line) as [v|e]; [|done]. cbn in Hdec.
      destruct (mapM loads (filter (λ l, l ≠ "") lines)) as [rest|e] eqn:Hrest; [|done].
      cbn in Hdec. injection Hdec as <-. cbn [length] in Hn.
      destruct (IH rest n w eq_refl) as [g Hg]; [lia|].
      exists g. by rewrite Hg.
Qed.

(** Reading on from a suspended generator up to a line that does not
    decode. *)
Lemma consume_malformed pre : ∀ bad post items e (n : nat) w,
  mapM loads (filter (λ l, l ≠ "") pre) = Ok items →
  bad ≠ "" → loads bad = Raise e →
  (length items < n)%nat →
  consume transport iter_lines loads n (Suspended (pre ++ bad :: post)) w
  = (items, Failed e, Exhausted, w).
Proof.
  induction pre as [|line pre IH]; intros bad post items e n w Hdec Hbad He Hn.
  - cbn in Hdec. injection Hdec as <-. destruct n as [|n]; [cbn in Hn; lia|].
    cbn [app consume next_item resume].
    destruct (String.eqb_spec bad ""); [done|]. by rewrite He.
  - destruct n as [|n]; [lia|].
    rewrite filter_cons in Hdec. cbn [app consume next_item resume].
    destruct (String.eqb_spec line "") as [->|Hline].
    + rewrite decide_False in Hdec by (intros Hne; by apply Hne).
      exact (IH bad post items e (S n) w Hdec Hbad He Hn).
    + rewrite decide_True in Hdec by done. cbn in Hdec.
      destruct (loads line) as [v|e']; [|done]. cbn in Hdec.
      destruct (mapM loads (filter (λ l, l ≠ "") pre)) as [rest|e'] eqn:Hrest; [|done].
      cbn in Hdec. injection Hdec as <-. cbn [length] in Hn.
      rewrite (IH bad post rest e n w eq_refl) by (done || lia). done.
Qed.

(** The first [next] on a new generator, when the answer has no error
    status, is the loop over its lines after one request. *)
Lemma consume_created self endpoint params w r (n : nat) :
  transport (length (sent w)) (get_request self endpoint params) = Ok r →
  ¬ (400 ≤ status_code r < 600) →
  consume transport iter_lines loads (S n) (stream_data self endpoint params) w
  = consume transport iter_lines loads (S n) (Suspended (iter_lines r))
      (record (get_request self endpoint params) w).
Proof.
  intros Hr Hstatus. cbn [consume next_item stream_data].
  unfold session_request. rewrite Hr. unfold raise_for_status.
  destruct (Z.leb_spec 400 (status_code r)); destruct (Z.ltb_spec (status_code r) 600);
    cbn [andb]; try lia; reflexivity.
Qed.

(** X11: when the answer has no error status and every line of its
    body that is not empty decodes, a consumer that reads to the end
    gets the decoded values of those lines, in order, and the
    generator is finished; a consumer that stops after [n] items gets
    the first [n].  In both cases one request was sent, there was no
    sleep, and the cache is as it was. *)
Theorem stream_data_yields_decoded_lines self endpoint params w r items :
  transport (length (sent w)) (get_request self endpoint params) = Ok r →
  ¬ (400 ≤ status_code r < 600) →
  mapM loads (filter (λ l, l ≠ "") (iter_lines r)) = Ok items →
  (∀ n : nat, (length items < n)%nat →
     consume transport iter_lines loads n (stream_data self endpoint params) w
     = (items, Stopped, Exhausted, record (get_request self endpoint params) w)) ∧
  (∀ n : nat, (1 ≤ n ≤ length items)%nat →
     ∃ g, consume transport iter_lines loads n (stream_data self endpoint params) w
          = (take n items, Abandoned, g, record (get_request self endpoint params) w)).
Proof.
  intros Hr Hstatus Hdec. split.
  - intros [|n] Hn; [lia|].
    rewrite (consume_created _ _ _ _ _ _ Hr Hstatus).
    by apply consume_decoded.
  - intros [|n] Hn; [lia|].
    rewrite (consume_created _ _ _ _ _ _ Hr Hstatus).
    apply consume_early; [done|lia].
Qed.

(** X12: when a line of the body does not decode, the consumer gets
    the decoded values of the lines before it and then the exception
    of the decoder; the lines after it are never read, and the
    generator is finished: asking again gives [StopIteration]. *)
Theorem stream_data_stops_at_malformed_line self endpoint params w r pre bad post
    items e (n : nat) :
  transport (length (sent w)) (get_request self endpoint params) = Ok r →
  ¬ (400 ≤ status_code r < 600) →
  iter_lines r = pre ++ bad :: post →
  mapM loads (filter (λ l, l ≠ "") pre) = Ok items →
  bad ≠ "" →
  loads bad = Raise e →
  (length items < n)%nat →
  consume transport iter_lines loads n (stream_data self endpoint params) w
  = (items, Failed e, Exhausted, record (get_request self endpoint params) w) ∧
  next_item transport iter_lines loads Exhausted (record (get_request self endpoint params) w)
  = (Ok StopIteration, Exhausted, record (get_request self endpoint params) w).
Proof.
  intros Hr Hstatus Hlines Hdec Hbad He Hn. split; [|done].
  destruct n as [|n]; [lia|].
  rewrite (consume_created _ _ _ _ _ _ Hr Hstatus), Hlines.
  by apply consume_malformed.
Qed.

(** X13: [stream_data] is not retried: when the request fails on the
    transport, or its answer has an error status, the first [next]
    raises that error after one request and no sleep, nothing is
    yielded, and the generator is finished. *)
Theorem stream_data_not_retried self endpoint params w e :
  transport (length (sent w)) (get_request self endpoint params) = Raise e ∨
  (∃ r, transport (length (sent w)) (get_request self endpoint params) = Ok r ∧
        400 ≤ status_code r < 600 ∧ e = HTTPError (status_code r)) →
  next_item transport iter_lines loads (stream_data self endpoint params) w
  = (Raise e, Exhausted, record (get_request self endpoint params) w) ∧
  ∀ n : nat, consume transport iter_lines loads (S n) (stream_data self endpoint params) w
             = ([], Failed e, Exhausted, record (get_request self endpoint params) w).
Proof.
  intros Hfail.
  assert (next_item transport iter_lines loads (stream_data self endpoint params) w
          = (Raise e, Exhausted, record (get_request self endpoint params) w)) as Hnext.
  { cbn [next_item stream_data]. unfold session_request.
    destruct Hfail as [->|(r & -> & Hstatus & ->)]; [done|].
    unfold raise_for_status.
    destruct (Z.leb_spec 400 (status_code r)); destruct (Z.ltb_spec (status_code r) 600);
      cbn [andb]; try lia; reflexivity. }
  split; [exact Hnext|]. intros n. cbn [consume]. by rewrite Hnext.
Qed.
End StreamFacts.

(** Reading the clean body to the end. *)
Lemma stream_data_yields_decoded_lines_steady :
  consume steady clean_lines loads_int 5 (stream_data demo_client "feed" None) start
  = ([JInt 1; JInt 2], Stopped, Exhausted,
     record (get_request demo_client "feed" None) start).
Proof.
  destruct (stream_data_yields_decoded_lines steady clean_lines loads_int
              demo_client "feed" None start
              {| status_code := 200; decoded := Ok (JInt 0) |} [JInt 1; JInt 2])
    as [Hall _].
  - reflexivity.
  - cbn. lia.
  - reflexivity.
  - apply (Hall 5%nat). cbn. lia.
Defined.

(** Reading the body with a malformed fourth line. *)
Lemma stream_data_stops_at_malformed_line_steady :
  consume steady number_lines loads_int 10 (stream_data demo_client "feed" None) start
  = ([JInt 1; JInt 2], Failed (ValueError "Expecting value"), Exhausted,
     record (get_request demo_client "feed" None) start).
Proof.
  destruct (stream_data_stops_at_malformed_line steady number_lines loads_int
              demo_client "feed" None start
              {| status_code := 200; decoded := Ok (JInt 0) |}
              ["1"; ""; "2"] "oops" ["3"] [JInt 1; JInt 2]
              (ValueError "Expecting value") 10%nat) as [Hrun _].
  - reflexivity.
  - cbn. lia.
  - reflexivity.
  - reflexivity.
  - discriminate.
  - reflexivity.
  - cbn. lia.
  - exact Hrun.
Defined.

(** Streaming from an unreachable host: one request, no retry. *)
Lemma stream_data_not_retried_unreachable :
  next_item unreachable clean_lines loads_int (stream_data demo_client "feed" None) start
  = (Raise (ConnectionError "no route to host"), Exhausted,
     record (get_request demo_client "feed" None) start).
Proof.
  destruct (stream_data_not_retried unreachable clean_lines loads_int
              demo_client "feed" None start (ConnectionError "no route to host"))
    as [Hnext _].
  - left. reflexivity.
  - exact Hnext.
Defined.

(** ** More on [process_data] *)

Section FilterFacts.
Context {value : Type} {pandas : Pandas value}.
Implicit Types (df out : DataFrame value) (h : gmap nat (DataFrame value)).

Lemma take_mask_sublist {X} (mask : list bool) (xs : list X) :
  take_mask mask xs `sublist_of` xs.
Proof.
  revert xs. induction mask as [|b mask IH]; intros [|x xs]; cbn; try by constructor.
  - apply sublist_nil_l.
  - destruct b; [by apply sublist_skip|by apply sublist_cons].
Qed.

Lemma take_mask_same_length {X Y} (mask : list bool) (xs : list X) (ys : list Y) :
  length xs = length ys → length (take_mask mask xs) = length (take_mask mask ys).
Proof.
  revert xs ys. induction mask as [|b mask IH]; intros [|x xs] [|y ys] Hlen;
    cbn in *; try done.
  destruct b; cbn; auto.
Qed.

Lemma column_names_getitem_mask df mask :
  column_names (getitem_mask df mask) = column_names df.
Proof.
  unfold column_names, getitem_mask. cbn. rewrite <- list_fmap_compose.
  by apply list_fmap_ext.
Qed.

Lemma dtypes_getitem_mask df mask :
  col_dtype <$> columns (getitem_mask df mask) = col_dtype <$> columns df.
Proof.
  unfold getitem_mask. cbn. rewrite <- list_fmap_compose. by apply list_fmap_ext.
Qed.

Lemma wf_getitem_mask df mask : wf_frame df → wf_frame (getitem_mask df mask).
Proof.
  intros [Hnames Hlen]. split.
  - fold (column_names (getitem_mask df mask)). by rewrite column_names_getitem_mask.
  - cbn. apply Forall_fmap. eapply Forall_impl; [exact Hlen|].
    intros c Hc. cbn. by apply take_mask_same_length.
Qed.

(** A frame got from another by masks: the invariant of a 'filter'
    entry. *)
Lemma filter_expr_masks col a df out :
  filter_expr col a df = Ok out → ∃ mask, out = getitem_mask df mask.
Proof.
  unfold filter_expr. destruct (getitem df col) as [series|]; [|done]. cbn.
  destruct (series_eq series a) as [mask|]; [|done]. cbn.
  intros [= <-]. by exists mask.
Qed.

Lemma filter_loop_narrows items : ∀ p h df l' h',
  h !! p = Some df → wf_frame df →
  filter_loop p items h = (Ok l', h') →
  ∃ out, h' !! l' = Some out ∧ wf_frame out ∧
         column_names out = column_names df ∧
         col_dtype <$> columns out = col_dtype <$> columns df ∧
         index out `sublist_of` index df.
Proof.
  induction items as [|[col a] items IH]; intros p h df l' h' Hp Hwf.
  - intros [= <- <-]. by exists df.
  - cbn [filter_loop]. rewrite bind_run. unfold rebind at 1.
    rewrite bind_run. unfold deref. rewrite Hp. rewrite bind_run. unfold lift.
    destruct (filter_expr col a df) as [out1|] eqn:Hout1; [|done].
    destruct (filter_expr_masks _ _ _ _ Hout1) as [mask ->].
    unfold alloc. intros Hrun.
    destruct (IH _ _ _ _ _ (lookup_insert_eq _ _ _) (wf_getitem_mask df mask Hwf) Hrun)
      as (out & Hout & Hwf' & Hnames & Htypes & Hidx).
    exists out. split; [done|]. split; [done|].
    rewrite Hnames, Htypes, column_names_getitem_mask, dtypes_getitem_mask.
    split; [done|]. split; [done|].
    etrans; [exact Hidx|]. apply take_mask_sublist.
Qed.

Lemma process_filter_entry l items h df :
  h !! l = Some df →
  process_data l [("filter", items)] h
  = match filter_loop (fresh (dom h)) items (<[fresh (dom h) := df]> h) with
    | (Ok p, h') => (Ok p, h')
    | (Raise e, h') => (Raise e, h')
    end.
Proof.
  intros Hl. unfold process_data, copy. rewrite !bind_run. unfold deref. rewrite Hl.
  unfold alloc. cbn [operations_loop]. rewrite bind_run.
  unfold apply_operation. cbn [String.eqb Ascii.eqb Bool.eqb].
  by destruct (filter_loop _ _ _) as [[p|e] h'].
Qed.

(** X18: whatever the conditions of a 'filter' entry, a call that
    returns gives a table with the same columns (names, types and
    order) as the input, whose row labels are a sub-list of the
    input's, in their order, and which is again a well-formed
    table. *)
Theorem filter_keeps_columns h (l : nat) df items l' h' :
  h !! l = Some df → wf_frame df →
  process_data l [("filter", items)] h = (Ok l', h') →
  ∃ out, h' !! l' = Some out ∧ wf_frame out ∧
         column_names out = column_names df ∧
         col_dtype <$> columns out = col_dtype <$> columns df ∧
         index out `sublist_of` index df.
Proof.
  intros Hl Hwf. rewrite (process_filter_entry _ _ _ _ Hl).
  destruct (filter_loop _ _ _) as [[p|e] h1] eqn:Hrun; [|done].
  intros [= <- <-].
  by apply (filter_loop_narrows items _ _ df _ _ (lookup_insert_eq _ _ _) Hwf Hrun).
Qed.

Lemma filter_loop_conds conds : ∀ p h df,
  h !! p = Some df → wf_frame df →
  Forall (λ cv, cv.1 ∈ column_names df) conds →
  ∃ l' h' out,
    filter_loop p (equalities conds) h = (Ok l', h') ∧
    h' !! l' = Some out ∧ wf_frame out ∧
    column_names out = column_names df ∧
    rows out = filter (λ r, all_match conds r = true) (rows df).
Proof.
  induction conds as [|[col v] conds IH]; intros p h df Hp Hwf Hpresent.
  - exists p, h, df. split; [done|]. split; [done|]. split; [done|]. split; [done|].
    induction (rows df) as [|r rs IHr]; [done|].
    rewrite filter_cons_True by done. by rewrite <- IHr.
  - apply Forall_cons in Hpresent as [Hcol Hpresent]. cbn [fst] in Hcol.
    destruct (filter_expr_rows col v df Hwf Hcol) as (out1 & Hout1 & Hmask & Hrows1).
    assert (wf_frame out1) as Hwf1 by (rewrite Hmask; by apply wf_getitem_mask).
    assert (column_names out1 = column_names df) as Hnames1
      by (rewrite Hmask; apply column_names_getitem_mask).
    destruct (IH (fresh (dom h)) (<[fresh (dom h) := out1]> h) out1)
      as (l' & h' & out & Hrun & Hout & Hwf' & Hnames & Hrows).
    + apply lookup_insert_eq.
    + done.
    + by rewrite Hnames1.
    + exists l', h', out. split; [|split; [done|split; [done|split]]].
      * cbn [equalities fmap list_fmap filter_loop fst snd]. rewrite bind_run.
        by rewrite (rebind_run _ _ _ _ _ Hp Hout1).
      * by rewrite Hnames.
      * rewrite Hrows, Hrows1, list_filter_filter. apply list_filter_iff.
        intros r. unfold all_match. cbn [forallb fst snd].
        rewrite andb_true_iff. tauto.
Qed.

(** X19: a 'filter' entry with any number of equality conditions on
    columns of the table keeps exactly the rows that satisfy all of
    them, in their order. *)
Theorem filter_conjunction h (l : nat) df conds :
  h !! l = Some df → wf_frame df →
  Forall (λ cv, cv.1 ∈ column_names df) conds →
  ∃ l' h' out,
    process_data l [("filter", equalities conds)] h = (Ok l', h') ∧
    h' !! l' = Some out ∧
    rows out = filter (λ r, all_match conds r = true) (rows df).
Proof.
  intros Hl Hwf Hpresent. rewrite (process_filter_entry _ _ _ _ Hl).
  destruct (filter_loop_conds conds (fresh (dom h)) (<[fresh (dom h) := df]> h) df)
    as (l' & h' & out & Hrun & Hout & _ & _ & Hrows);
    [apply lookup_insert_eq|done|done|].
  exists l', h', out. by rewrite Hrun.
Qed.

Lemma find_column_absent col (cols : list (column value)) :
  col ∉ col_name <$> cols → find_column col cols = None.
Proof.
  induction cols as [|c cols IH]; [done|]. cbn.
  intros Hnot. apply not_elem_of_cons in Hnot as [Hne Hnot].
  destruct (String.eqb_spec (col_name c) col); [congruence|auto].
Qed.

(** X14: a 'filter' entry that names a column the table does not have
    raises [KeyError] with that name, also when the conditions before
    it were on columns of the table: filtering does not add
    columns. *)
Theorem filter_unknown_column h (l : nat) df pre col a post :
  h !! l = Some df → wf_frame df →
  Forall (λ cv, cv.1 ∈ column_names df) pre →
  col ∉ column_names df →
  ∃ h', process_data l [("filter", equalities pre ++ (col, a) :: post)] h
        = (Raise (KeyError col), h').
Proof.
  intros Hl Hwf Hpresent Hcol. rewrite (process_filter_entry _ _ _ _ Hl).
  assert (Hloop : ∀ pre' p h0 df0,
            h0 !! p = Some df0 → wf_frame df0 →
            column_names df0 = column_names df →
            Forall (λ cv, cv.1 ∈ column_names df) pre' →
            ∃ h', filter_loop p (equalities pre' ++ (col, a) :: post) h0
                  = (Raise (KeyError col), h')).
  { induction pre' as [|[c v] pre' IH]; intros p h0 df0 Hp Hwf0 Hnames0 Hpre.
    - cbn [equalities fmap list_fmap app filter_loop]. rewrite bind_run.
      unfold rebind. rewrite bind_run. unfold deref. rewrite Hp.
      rewrite bind_run. unfold lift, filter_expr, getitem.
      rewrite find_column_absent; [by eexists|].
      fold (column_names df0). by rewrite Hnames0.
    - apply Forall_cons in Hpre as [Hc Hpre]. cbn [fst] in Hc.
      rewrite <- Hnames0 in Hc.
      destruct (filter_expr_rows c v df0 Hwf0 Hc) as (out1 & Hout1 & Hmask & _).
      cbn [equalities fmap list_fmap app filter_loop fst snd]. rewrite bind_run.
      rewrite (rebind_run _ _ _ _ _ Hp Hout1).
      apply (IH _ _ out1); [apply lookup_insert_eq| | |done].
      + rewrite Hmask. by apply wf_getitem_mask.
      + by rewrite Hmask, column_names_getitem_mask. }
  destruct (Hloop pre (fresh (dom h)) (<[fresh (dom h) := df]> h) df) as [h' Hrun];
    [apply lookup_insert_eq|done|done|done|].
  exists h'. by rewrite Hrun.
Qed.

(** X15: a 'group' or a 'sort' entry whose parameters have no 'by'
    raises [KeyError] for 'by'; the library is not called, and only
    the copy made at the start has been added to the heap. *)
Theorem group_sort_need_by h (l : nat) df op params :
  h !! l = Some df →
  op = "group" ∨ op = "sort" →
  dict_lookup "by" params = None →
  process_data l [(op, params)] h
  = (Raise (KeyError "by"), <[fresh (dom h) := df]> h).
Proof.
  intros Hl Hop Hby. unfold process_data, copy. rewrite !bind_run. unfold deref.
  rewrite Hl. unfold alloc. cbn [operations_loop]. rewrite bind_run.
  unfold apply_operation, rebind.
  destruct Hop as [-> | ->]; cbn [String.eqb Ascii.eqb Bool.eqb];
    rewrite bind_run; unfold deref; rewrite lookup_insert_eq; rewrite bind_run;
    unfold lift, group_expr, sort_expr, subscript; by rewrite Hby.
Qed.

(** X16: when no entry of the operations has a recognized name, in
    particular when there is no entry, [process_data] returns a new
    object that holds the same table as its input. *)
Theorem process_data_without_operations h (l : nat) df operations :
  h !! l = Some df →
  Forall (λ e, recognized e.1 = false) operations →
  process_data l operations h = (Ok (fresh (dom h)), <[fresh (dom h) := df]> h) ∧
  fresh (dom h) ≠ l.
Proof.
  intros Hl Hnone. split.
  - unfold process_data, copy. rewrite !bind_run. unfold deref. rewrite Hl. unfold alloc.
    generalize (<[fresh (dom h) := df]> h) as h1. generalize (fresh (dom h)) as p.
    induction operations as [|[op params] rest IH]; intros p h1; [done|].
    apply Forall_cons in Hnone as [Hop Hrest]. cbn [fst] in Hop.
    cbn [operations_loop]. rewrite bind_run.
    rewrite apply_operation_unrecognized by done. by apply IH.
  - intros Heq. pose proof (alloc_fresh h) as Hfresh. rewrite Heq in Hfresh. congruence.
Qed.

(** X17: an equality filter is idempotent: applying it to its own
    result gives the table it gave the first time. *)
Theorem filter_idempotent h (l : nat) df col v :
  h !! l = Some df → wf_frame df → col ∈ column_names df →
  ∃ out l' h',
    process_data l [("filter", [(col, Lit v)])] h = (Ok l', h') ∧
    h' !! l' = Some out ∧
    filtered_twice h l col v col v out.
Proof.
  intros Hl Hwf Hcol.
  destruct (filter_expr_rows col v df Hwf Hcol) as (out & Hout & Hmask & _).
  destruct (process_filter_run h l df col v out Hl Hout) as (l' & h' & Hrun & Hl').
  exists out, l', h'. split; [done|]. split; [done|].
  rewrite Hmask. erewrite list_fmap_ext; [by apply filtered_twice_run|].
  intros _ r _. cbn beta. by destruct (row_matches col v r).
Qed.

(** X20: the filter of the sidebar, with a column of the table and a
    value picked from that column which is equal to itself, returns a
    table with at least one row: only a value such as NaN, which
    equals nothing, empties the table. *)
Theorem sidebar_filter_not_empty h (data : nat) df col c selected_value :
  h !! data = Some df → wf_frame df →
  find_column col (columns df) = Some c →
  selected_value ∈ cells c →
  cell_eq selected_value selected_value = true →
  ∃ l' h' out,
    sidebar_apply_filter data col selected_value h = (Ok l', h') ∧
    h' !! l' = Some out ∧
    rows out ≠ [].
Proof.
  intros Hdata Hwf Hc Hin Hrefl.
  assert (col ∈ column_names df) as Hcol.
  { clear -Hc. unfold column_names.
    induction (columns df) as [|c' cols IH]; [done|]. cbn in *.
    destruct (String.eqb_spec (col_name c') col) as [<-|]; [left|right; auto]. }
  destruct (filter_expr_rows col selected_value df Hwf Hcol) as (out & Hout & _ & Hrows).
  destruct (process_filter_run h data df col selected_value out Hdata Hout)
    as (l' & h' & Hrun & Hl').
  exists l', h', out. split; [exact Hrun|]. split; [done|].
  pose proof (series_mask_rows selected_value col (index df) (columns df) c
                (wf_all_of_length _ Hwf) Hc) as Hmask.
  assert (true ∈ (λ x, cell_eq x selected_value) <$> cells c) as Htrue.
  { apply list_elem_of_fmap. by exists selected_value. }
  rewrite Hmask in Htrue. apply list_elem_of_fmap in Htrue as (r & Hr & Hrin).
  rewrite Hrows. intros Hnil.
  assert (r ∈ filter (λ r, row_matches col selected_value r = true) (rows df)) as Hr'
    by (by apply list_elem_of_filter).
  rewrite Hnil in Hr'. by apply elem_of_nil in Hr'.
Qed.
End FilterFacts.

Lemma people_at : ({[0%nat := people]} : gmap nat (DataFrame cell)) !! 0%nat = Some people.
Proof. reflexivity. Defined.

Lemma people_has (col : string) :
  bool_decide (col ∈ column_names people) = true → col ∈ column_names people.
Proof. intros Hcol. by apply bool_decide_eq_true in Hcol. Qed.

Lemma filter_keeps_columns_people :
  ∃ l' h' out,
    process_data 0%nat [("filter", [("city", Lit (VStr "Oslo"))])] {[0%nat := people]}
      = (Ok l', h') ∧
    h' !! l' = Some out ∧
    column_names out = ["city"; "age"; "member"] ∧
    index out `sublist_of` [0; 1; 2; 3].
Proof.
  destruct (process_filter_run {[0%nat := people]} 0%nat people "city" (VStr "Oslo") _
              people_at eq_refl) as (l' & h' & Hrun & _).
  destruct (filter_keeps_columns {[0%nat := people]} 0%nat people
              [("city", Lit (VStr "Oslo"))] l' h' people_at people_wf Hrun)
    as (out & Hout & _ & Hnames & _ & Hidx).
  exists l', h', out. split; [exact Hrun|]. split; [exact Hout|].
  split; [exact Hnames|exact Hidx].
Defined.

Lemma filter_conjunction_people :
  ∃ l' h' out,
    process_data 0%nat [("filter", [("city", Lit (VStr "Oslo")); ("age", Lit (VInt 31));
                                    ("member", Lit (VBool true))])]
                 {[0%nat := people]} = (Ok l', h') ∧
    h' !! l' = Some out ∧
    rows out = [(0, [("city", VStr "Oslo"); ("age", VInt 31); ("member", VBool true)])].
Proof.
  destruct (filter_conjunction {[0%nat := people]} 0%nat people
              [("city", VStr "Oslo"); ("age", VInt 31); ("member", VBool true)]
              people_at people_wf)
    as (l' & h' & out & Hrun & Hout & Hrows).
  - repeat constructor.
  - exists l', h', out. split; [exact Hrun|]. split; [exact Hout|].
    rewrite Hrows. reflexivity.
Defined.

Lemma filter_unknown_column_people :
  ∃ h', process_data 0%nat [("filter", [("city", Lit (VStr "Oslo"));
                                        ("salary", Lit (VInt 0))])]
                     {[0%nat := people]} = (Raise (KeyError "salary"), h').
Proof.
  apply (filter_unknown_column {[0%nat := people]} 0%nat people
           [("city", VStr "Oslo")] "salary" (Lit (VInt 0)) [] people_at people_wf).
  - repeat constructor.
  - intros Hin. apply (bool_decide_pack _) in Hin. vm_compute in Hin. exact Hin.
Defined.

Lemma group_sort_need_by_people :
  (process_data 0%nat [("sort", [("ascending", Flag false)])] {[0%nat := people]}).1
  = Raise (KeyError "by").
Proof.
  rewrite (group_sort_need_by {[0%nat := people]} 0%nat people "sort"
             [("ascending", Flag false)] people_at (or_intror eq_refl) eq_refl).
  reflexivity.
Defined.

Lemma process_data_without_operations_people :
  ∃ l', process_data 0%nat [("pivot", [])] {[0%nat := people]}
        = (Ok l', <[l' := people]> {[0%nat := people]}) ∧ l' ≠ 0%nat.
Proof.
  destruct (process_data_without_operations {[0%nat := people]} 0%nat people
              [("pivot", [])] people_at) as [Hrun Hnew].
  - repeat constructor.
  - eexists. split; [exact Hrun|exact Hnew].
Defined.

Lemma filter_idempotent_people :
  ∃ out, filtered_twice {[0%nat := people]} 0%nat "age" (VInt 31) "age" (VInt 31) out ∧
         ∃ l' h', process_data 0%nat [("filter", [("age", Lit (VInt 31))])]
                               {[0%nat := people]} = (Ok l', h') ∧
                  h' !! l' = Some out.
Proof.
  destruct (filter_idempotent {[0%nat := people]} 0%nat people "age" (VInt 31)
              people_at people_wf) as (out & l' & h' & Hrun & Hout & Htwice).
  - by apply people_has.
  - exists out. split; [exact Htwice|]. exists l', h'. split; [exact Hrun|exact Hout].
Defined.

Lemma sidebar_filter_not_empty_people :
  ∃ l' h' out,
    sidebar_apply_filter 0%nat "city" (VStr "Rome") {[0%nat := people]} = (Ok l', h') ∧
    h' !! l' = Some out ∧
    rows out ≠ [].
Proof.
  apply (sidebar_filter_not_empty {[0%nat := people]} 0%nat people "city"
           {| col_name := "city"; col_dtype := object_;
              cells := [VStr "Oslo"; VStr "Rome"; VStr "Oslo"; VNaN] |}
           (VStr "Rome") people_at people_wf eq_refl).
  - cbn [cells]. apply elem_of_cons. right. apply elem_of_cons. by left.
  - reflexivity.
Defined.

(** ** More on the summary *)

Section CountFacts.
Context {value : Type} {pandas : Pandas value}.
Implicit Types (df : DataFrame value) (c : column value).

Lemma bump_sum v (counts : list (value * nat)) :
  sum_list (bump v counts).*2 = S (sum_list counts.*2).
Proof.
  induction counts as [|[k n] counts IH]; [done|]. cbn.
  destruct (cell_eq k v); cbn; [done|]. rewrite IH. lia.
Qed.

Lemma bump_keys v (counts : list (value * nat)) (P : value → Prop) :
  P v → Forall (λ kn, P kn.1 ∧ (0 < kn.2)%nat) counts →
  Forall (λ kn, P kn.1 ∧ (0 < kn.2)%nat) (bump v counts).
Proof.
  intros Hv. induction 1 as [|[k n] counts [Hk Hn] Htail IH]; cbn.
  - constructor; [split; [done|cbn; lia]|constructor].
  - cbn in Hk, Hn. destruct (cell_eq k v).
    + constructor; [cbn; split; [done|lia]|done].
    + constructor; [cbn; by split|exact IH].
Qed.

(** The occurrences that are counted add up to the number of cells
    that are not null; every counted value is a cell that is not
    null, and is counted at least once. *)
Lemma observed_counts_sum (xs : list value) :
  sum_list (observed_counts xs).*2 = length (filter (λ x, isnull x = false) xs) ∧
  Forall (λ kn, (kn.1 ∈ xs ∧ isnull kn.1 = false) ∧ (0 < kn.2)%nat) (observed_counts xs).
Proof.
  unfold observed_counts.
  assert (Hgen : ∀ ys (acc : list (value * nat)),
            Forall (λ kn, (kn.1 ∈ xs ∧ isnull kn.1 = false) ∧ (0 < kn.2)%nat) acc →
            (∀ x, x ∈ ys → x ∈ xs) →
            sum_list (foldl (λ counts x, if isnull x then counts else bump x counts)
                            acc ys).*2
            = (sum_list acc.*2 + length (filter (λ x, isnull x = false) ys))%nat ∧
            Forall (λ kn, (kn.1 ∈ xs ∧ isnull kn.1 = false) ∧ (0 < kn.2)%nat)
                   (foldl (λ counts x, if isnull x then counts else bump x counts) acc ys)).
  { induction ys as [|x ys IH]; intros acc Hacc Hsub.
    - cbn. split; [lia|done].
    - cbn [foldl]. rewrite filter_cons.
      destruct (isnull x) eqn:Hnull.
      + rewrite decide_False by done. apply IH; [done|]. intros y Hy. apply Hsub. by right.
      + rewrite decide_True by done.
        destruct (IH (bump x acc)) as [Hsum Hall].
        * apply (bump_keys x acc (λ v, v ∈ xs ∧ isnull v = false)); [|done].
          split; [apply Hsub; by left|done].
        * intros y Hy. apply Hsub. by right.
        * split; [|done]. rewrite Hsum, bump_sum. cbn [length]. lia. }
  destruct (Hgen xs []) as [Hsum Hall]; [constructor|done|].
  split; [exact Hsum|exact Hall].
Qed.

Lemma find_column_name col (cols : list (column value)) c :
  find_column col cols = Some c → col_name c = col ∧ c ∈ cols.
Proof.
  induction cols as [|c' cols IH]; [done|]. cbn.
  destruct (String.eqb_spec (col_name c') col) as [Heq|].
  - intros [= <-]. split; [done|by left].
  - intros Hc. destruct (IH Hc). split; [done|by right].
Qed.

Lemma find_column_unique (cols : list (column value)) c :
  NoDup (col_name <$> cols) → c ∈ cols → find_column (col_name c) cols = Some c.
Proof.
  induction cols as [|c' cols IH]; [by intros _ ?%elem_of_nil|].
  cbn. intros [Hfirst Hnd]%NoDup_cons Hc.
  destruct (String.eqb_spec (col_name c') (col_name c)) as [Heq|Hne].
  - apply elem_of_cons in Hc as [->|Hc]; [done|].
    exfalso. apply Hfirst. rewrite Heq. apply list_elem_of_fmap. eauto.
  - apply elem_of_cons in Hc as [->|Hc]; [done|auto].
Qed.

Lemma mapM_outcome_cons {X Y} (f : X → outcome Y) x xs :
  mapM f (x :: xs) = y ← f x; k ← mapM f xs; mret (y :: k).
Proof. reflexivity. Qed.

(** What [mapM] over the names of columns of the frame gives. *)
Lemma mapM_getitem_sections {Y} (g : column value → Y) df (names : list string) :
  (∀ name, name ∈ names → name ∈ column_names df) →
  ∃ out, mapM (λ col, series ← getitem df col; mret (col, g series)) names = Ok out ∧
         out.*1 = names ∧
         ∀ name, name ∈ names →
           ∃ c, find_column name (columns df) = Some c ∧
                dict_lookup name out = Some (g c).
Proof.
  induction names as [|name names IH]; intros Hsub.
  - exists []. split; [done|]. split; [done|]. by intros ? ?%elem_of_nil.
  - destruct IH as (out & Hout & Hkeys & Hlook); [intros x Hx; apply Hsub; by right|].
    destruct (find_column_elem name (columns df)) as [c Hc]; [apply Hsub; by left|].
    exists ((name, g c) :: out). split; [|split].
    + rewrite mapM_outcome_cons, Hout. cbn beta. unfold getitem. by rewrite Hc.
    + cbn. by rewrite Hkeys.
    + intros x Hx. cbn. destruct (String.eqb_spec name x) as [<-|Hne]; [eauto|].
      apply elem_of_cons in Hx as [->|Hx]; [done|auto].
Qed.

Lemma mapM_getitem_columns df (names : list string) :
  (∀ name, name ∈ names → name ∈ column_names df) →
  ∃ cols, mapM (getitem df) names = Ok cols ∧ col_name <$> cols = names.
Proof.
  induction names as [|name names IH]; intros Hsub.
  - by exists [].
  - destruct IH as (cols & Hcols & Hkeys); [intros x Hx; apply Hsub; by right|].
    destruct (find_column_elem name (columns df)) as [c Hc]; [apply Hsub; by left|].
    destruct (find_column_name _ _ _ Hc) as [Hname _].
    exists (c :: cols). split.
    + rewrite mapM_outcome_cons, Hcols. unfold getitem. by rewrite Hc.
    + cbn. by rewrite Hname, Hkeys.
Qed.

(** The summary with its two conditional sections described. *)
Lemma generate_summary_stats_sections df :
  ∃ numeric_summary categorical_summary,
    generate_summary_stats df
    = Ok [("row_count", SInt (len df));
          ("column_count", SInt (length (columns df)));
          ("numeric_columns", SNames (column_names (select_dtypes df [int64; float64])));
          ("categorical_columns",
           SNames (column_names (select_dtypes df [object_; category])));
          ("missing_values", SMissing (missing_values df));
          ("numeric_summary", SDescribe numeric_summary);
          ("categorical_summary", SFrequencies categorical_summary)] ∧
    numeric_summary.*1 = column_names (select_dtypes df [int64; float64]) ∧
    categorical_summary.*1 = column_names (select_dtypes df [object_; category]) ∧
    ∀ name, name ∈ column_names (select_dtypes df [object_; category]) →
      ∃ c, find_column name (columns df) = Some c ∧
           dict_lookup name categorical_summary = Some (value_counts c).
Proof.
  unfold generate_summary_stats.
  set (numeric_cols := column_names (select_dtypes df [int64; float64])).
  set (categorical_cols := column_names (select_dtypes df [object_; category])).
  destruct (mapM_getitem_columns df numeric_cols) as (cols & Hcols & Hnames);
    [intros name Hname; by eapply select_dtypes_names|].
  destruct (mapM_getitem_sections value_counts df categorical_cols)
    as (cs & Hcs & Hkeys & Hlook); [intros name Hname; by eapply select_dtypes_names|].
  assert (∃ ns, (if (0 <? length numeric_cols)%nat
                 then sub ← getitem_list df numeric_cols; mret (describe sub)
                 else mret []) = Ok ns ∧ ns.*1 = numeric_cols) as (ns & -> & Hns).
  { destruct numeric_cols as [|n rest] eqn:Hnum; [by exists []|].
    eexists. split.
    - cbn [length Nat.ltb Nat.leb]. unfold getitem_list. rewrite Hcols. reflexivity.
    - unfold describe. cbn [columns]. rewrite <- list_fmap_compose.
      rewrite <- Hnames. by apply list_fmap_ext. }
  assert ((if (0 <? length categorical_cols)%nat
           then mapM (λ col, series ← getitem df col; mret (col, value_counts series))
                     categorical_cols
           else mret []) = Ok cs) as ->.
  { destruct categorical_cols as [|n rest] eqn:Hcat; [|exact Hcs].
    cbn in Hcs. by injection Hcs as <-. }
  by exists ns, cs.
Qed.

(** X21: the [missing_values] section has one entry for each column
    of the table, in the order of the columns, and on a well-formed
    table no count is larger than [row_count]. *)
Theorem missing_values_per_column df :
  ∃ stats counts,
    generate_summary_stats df = Ok stats ∧
    dict_lookup "missing_values" stats = Some (SMissing counts) ∧
    counts.*1 = column_names df ∧
    (wf_frame df → Forall (λ nc, (nc.2 ≤ len df)%nat) counts).
Proof.
  destruct (generate_summary_stats_sections df) as (ns & cs & -> & _).
  eexists _, _. split; [reflexivity|]. split; [reflexivity|]. split.
  - unfold missing_values, column_names. rewrite <- list_fmap_compose.
    by apply list_fmap_ext.
  - intros [_ Hlen]. unfold missing_values. apply Forall_fmap.
    eapply Forall_impl; [exact Hlen|]. intros c Hc. cbn. unfold len. rewrite <- Hc.
    apply length_filter.
Qed.

(** X22: on a table with distinct column names, the frequency table
    of a column of type object is in [categorical_summary] under the
    name of the column; its counts add up to the number of cells of
    the column that are not null, and every value it lists is such a
    cell, listed with a count of at least one.  (A column of type
    category is counted by its categories.) *)
Theorem object_counts_add_up df c :
  wf_frame df → c ∈ columns df →
  col_dtype c = object_ →
  ∃ stats tables table,
    generate_summary_stats df = Ok stats ∧
    dict_lookup "categorical_summary" stats = Some (SFrequencies tables) ∧
    dict_lookup (col_name c) tables = Some table ∧
    sum_list table.*2 = length (filter (λ x, isnull x = false) (cells c)) ∧
    Forall (λ kn, (kn.1 ∈ cells c ∧ isnull kn.1 = false) ∧ (0 < kn.2)%nat) table.
Proof.
  intros [Hnd _] Hc Hty.
  destruct (generate_summary_stats_sections df) as (ns & cs & -> & _ & _ & Hlook).
  destruct (Hlook (col_name c)) as (c' & Hfind & Htable).
  { apply (column_names_select df [object_; category] Hnd c Hc).
    rewrite !elem_of_cons. tauto. }
  rewrite (find_column_unique _ _ Hnd Hc) in Hfind. injection Hfind as <-.
  eexists _, cs, (value_counts c). split; [reflexivity|]. split; [reflexivity|].
  split; [exact Htable|].
  unfold value_counts. rewrite Hty, decide_False by done.
  apply observed_counts_sum.
Qed.

(** X23: the keys of [numeric_summary] are the names listed in
    [numeric_columns], and the keys of [categorical_summary] those
    listed in [categorical_columns], in the same order; so a section
    is empty exactly when its list is. *)
Theorem summary_sections_keyed_by_lists df :
  ∃ stats numeric categorical described counted,
    generate_summary_stats df = Ok stats ∧
    dict_lookup "numeric_columns" stats = Some (SNames numeric) ∧
    dict_lookup "categorical_columns" stats = Some (SNames categorical) ∧
    dict_lookup "numeric_summary" stats = Some (SDescribe described) ∧
    dict_lookup "categorical_summary" stats = Some (SFrequencies counted) ∧
    described.*1 = numeric ∧ counted.*1 = categorical ∧
    (described = [] ↔ numeric = []) ∧ (counted = [] ↔ categorical = []).
Proof.
  destruct (generate_summary_stats_sections df) as (ns & cs & -> & Hns & Hcs & _).
  eexists _, _, _, ns, cs. repeat (split; [reflexivity|]).
  split; [exact Hns|]. split; [exact Hcs|]. rewrite <- Hns, <- Hcs.
  split; (split; [by intros ->|]); [by destruct ns|by destruct cs].
Qed.
End CountFacts.

Lemma missing_values_per_column_people :
  ∃ stats counts,
    generate_summary_stats people = Ok stats ∧
    dict_lookup "missing_values" stats = Some (SMissing counts) ∧
    counts = [("city", 1%nat); ("age", 0%nat); ("member", 0%nat)] ∧
    Forall (λ nc, (nc.2 ≤ 4)%nat) counts.
Proof.
  destruct (missing_values_per_column people) as (stats & counts & Hrun & Hlook & _ & Hle).
  exists stats, counts. split; [exact Hrun|]. split; [exact Hlook|].
  split; [|exact (Hle people_wf)].
  vm_compute in Hrun. injection Hrun as <-. cbn in Hlook. by injection Hlook as <-.
Defined.

Lemma object_counts_add_up_people :
  ∃ stats tables table,
    generate_summary_stats people = Ok stats ∧
    dict_lookup "categorical_summary" stats = Some (SFrequencies tables) ∧
    dict_lookup "city" tables = Some table ∧
    sum_list table.*2 = 3%nat.
Proof.
  destruct (object_counts_add_up people
              {| col_name := "city"; col_dtype := object_;
                 cells := [VStr "Oslo"; VStr "Rome"; VStr "Oslo"; VNaN] |} people_wf)
    as (stats & tables & table & Hrun & Htables & Htable & Hsum & _).
  - apply elem_of_cons. by left.
  - reflexivity.
  - exists stats, tables, table. split; [exact Hrun|]. split; [exact Htables|].
    split; [exact Htable|]. rewrite Hsum. reflexivity.
Defined.

(** ** More on the loader *)

Lemma length_append_string (p s : string) :
  String.length (p +:+ s) = (String.length p + String.length s)%nat.
Proof.
  induction p as [|c p IH]; [done|].
  change (String c p +:+ s) with (String c (p +:+ s)). cbn [String.length].
  by rewrite IH.
Qed.

Lemma substring_all (s : string) : substring 0 (String.length s) s = s.
Proof. induction s as [|c s IH]; [done|]. cbn. f_equal. exact IH. Qed.

Lemma substring_after (p s : string) :
  substring (String.length p) (String.length s) (p +:+ s) = s.
Proof. induction p as [|c p IH]; [apply substring_all|exact IH]. Qed.

Lemma substring_split (s : string) : ∀ k : nat,
  (k ≤ String.length s)%nat →
  s = substring 0 k s +:+ substring k (String.length s - k) s.
Proof.
  induction s as [|c s IH]; intros [|k] Hk; cbn [String.length] in Hk; try lia.
  - done.
  - cbn [substring]. rewrite Nat.sub_0_r.
    change (String c s = "" +:+ substring 0 (String.length (String c s)) (String c s)).
    by rewrite substring_all.
  - cbn [substring String.length Nat.sub].
    match goal with
    | |- _ = String c ?a +:+ ?b => change (String c a +:+ b) with (String c (a +:+ b))
    end.
    f_equal. apply IH. lia.
Qed.

(** [endswith] is the test that the string is some stem followed by
    the suffix. *)
Lemma endswith_stem (s suffix : string) :
  endswith s suffix = true ↔ ∃ stem, s = stem +:+ suffix.
Proof.
  unfold endswith. split.
  - intros [Hlen Heq%String.eqb_eq]%andb_true_iff. apply Nat.leb_le in Hlen.
    exists (substring 0 (String.length s - String.length suffix) s).
    pose proof (substring_split s (String.length s - String.length suffix)) as Hsplit.
    replace (String.length s - (String.length s - String.length suffix))%nat
      with (String.length suffix) in Hsplit by lia.
    rewrite Heq in Hsplit. apply Hsplit. lia.
  - intros [stem ->]. rewrite length_append_string. apply andb_true_iff. split.
    + apply Nat.leb_le. lia.
    + replace (String.length stem + String.length suffix - String.length suffix)%nat
        with (String.length stem) by lia.
      rewrite substring_after. apply String.eqb_refl.
Qed.

Section StemFacts.
Context {value : Type} {pandas : Pandas value}.

(** X24: the loader tells the format from the end of the whole name,
    letter case included: a file named with any stem, the empty one
    too, followed by .csv goes to the CSV reader, one named with a
    stem followed by .xlsx to the spreadsheet reader, and a name of
    neither form is rejected by name. *)
Theorem load_data_by_stem :
  (∀ stem content,
     load_data (UploadedFile (stem +:+ ".csv") content) = read_csv (Buffer content)) ∧
  (∀ stem content,
     load_data (UploadedFile (stem +:+ ".xlsx") content) = read_excel (Buffer content)) ∧
  (∀ name content,
     (∀ stem, name ≠ stem +:+ ".csv") → (∀ stem, name ≠ stem +:+ ".xlsx") →
     load_data (UploadedFile name content)
     = Raise (ValueError ("Unsupported file format: " +:+ name))).
Proof.
  split; [|split].
  - intros stem content. cbn.
    by rewrite (proj2 (endswith_stem (stem +:+ ".csv") ".csv")) by eauto.
  - intros stem content. cbn.
    assert (endswith (stem +:+ ".xlsx") ".xlsx" = true) as Hx
      by (apply endswith_stem; eauto).
    destruct (endswith (stem +:+ ".xlsx") ".csv") eqn:Hcsv.
    + apply endswith_csv_not_xlsx in Hcsv. congruence.
    + by rewrite Hx.
  - intros name content Hcsv Hxlsx. cbn.
    destruct (endswith name ".csv") eqn:H1.
    { apply endswith_stem in H1 as [stem ->]. by destruct (Hcsv stem). }
    destruct (endswith name ".xlsx") eqn:H2; [|done].
    apply endswith_stem in H2 as [stem ->]. by destruct (Hxlsx stem).
Qed.
End StemFacts.

Lemma load_data_by_stem_reference :
  load_data (value:=cell) (UploadedFile "DATA.CSV" "a,b")
  = Raise (ValueError "Unsupported file format: DATA.CSV").
Proof.
  destruct (load_data_by_stem (value:=cell)) as (_ & _ & Hother).
  apply Hother.
  - intros stem Heq. apply (f_equal (λ s, endswith s ".csv")) in Heq.
    rewrite (proj2 (endswith_stem (stem +:+ ".csv") ".csv")) in Heq by eauto.
    discriminate Heq.
  - intros stem Heq. apply (f_equal (λ s, endswith s ".xlsx")) in Heq.
    rewrite (proj2 (endswith_stem (stem +:+ ".xlsx") ".xlsx")) in Heq by eauto.
    discriminate Heq.
Defined.

(** ** [create_visualization_data] *)

Section VizFacts.
Context {value : Type} {pandas : Pandas value}.
Variable groupby_sum : DataFrame value → string → string → outcome (DataFrame value).

(** X25: a scatter or a line plot without a [y_col] ([None] or the
    empty string) is refused with a [ValueError] that names the kind
    of plot, before any column is looked up: whatever the table, the
    [x_col] and the [group_by]. *)
Theorem scatter_line_require_y_col df viz_type x_col y_col group_by :
  viz_type = "scatter" ∨ viz_type = "line" →
  truthy y_col = false →
  create_visualization_data groupby_sum df viz_type x_col y_col group_by
  = VizRaise (ValueError (viz_type +:+ " plot requires y_col")).
Proof.
  intros Hkind Hy. unfold create_visualization_data.
  destruct Hkind as [-> | ->]; cbn [String.eqb Ascii.eqb Bool.eqb orb].
  - by destruct y_col as [[|]|].
  - by destruct y_col as [[|]|].
Qed.

(** X26: for a [viz_type] that is none of 'scatter', 'line', 'bar' and
    'histogram' the function returns nothing and raises no
    [ValueError]: it fails on [return data] with the
    [UnboundLocalError] of the variable [data]; so a plot is returned
    only for the four names. *)
Theorem unknown_viz_type_unbound df viz_type x_col y_col group_by :
  (viz_type ∉ ["scatter"; "line"; "bar"; "histogram"] →
   create_visualization_data groupby_sum df viz_type x_col y_col group_by
   = VizUnboundLocal "data") ∧
  (∀ data, create_visualization_data groupby_sum df viz_type x_col y_col group_by
           = VizOk data →
           viz_type ∈ ["scatter"; "line"; "bar"; "histogram"]).
Proof.
  assert (Hunknown : viz_type ∉ ["scatter"; "line"; "bar"; "histogram"] →
            create_visualization_data groupby_sum df viz_type x_col y_col group_by
            = VizUnboundLocal "data").
  { intros Hnot. unfold create_visualization_data.
    destruct (String.eqb_spec viz_type "scatter") as [->|_]; [exfalso; apply Hnot; set_solver|].
    destruct (String.eqb_spec viz_type "line") as [->|_]; [exfalso; apply Hnot; set_solver|].
    destruct (String.eqb_spec viz_type "bar") as [->|_]; [exfalso; apply Hnot; set_solver|].
    destruct (String.eqb_spec viz_type "histogram") as [->|_];
      [exfalso; apply Hnot; set_solver|].
    reflexivity. }
  split; [exact Hunknown|].
  intros data Hok.
  destruct (decide (viz_type ∈ ["scatter"; "line"; "bar"; "histogram"])) as [|Hnot]; [done|].
  rewrite (Hunknown Hnot) in Hok. discriminate Hok.
Qed.

End VizFacts.

Lemma scatter_line_require_y_col_people :
  create_visualization_data no_groupby_sum people "line" "no such column" (Some "") None
  = VizRaise (ValueError "line plot requires y_col").
Proof.
  apply (scatter_line_require_y_col no_groupby_sum people "line").
  - by right.
  - reflexivity.
Defined.

Lemma unknown_viz_type_unbound_people :
  create_visualization_data no_groupby_sum people "pie" "city" None None
  = VizUnboundLocal "data".
Proof.
  destruct (unknown_viz_type_unbound no_groupby_sum people "pie" "city" None None)
    as [Hunknown _].
  apply Hunknown. intros Hin. apply (bool_decide_pack _) in Hin. vm_compute in Hin.
  exact Hin.
Defined.
